(** * Advisory filtering engine (scripts/filter_advisories.py)

    A shallow embedding of the [AdvisoryFilter] class: the severity gate,
    the keyword and regex matchers, the relevance score and the batch
    pipeline (collect, sort, truncate), followed by the properties of the
    engine that the specification states.

    Modelling choices.
    - Text is [string] over ASCII.  [str.lower], [str.strip], the regex
      class [\w] and the case folding of [re.IGNORECASE] are modelled on
      code points below 128, where they are what Python computes; [is_ascii]
      says that a text lies in this range, and the statements about what
      the keyword searches find carry it as a hypothesis.  Outside this
      range Python consults the Unicode tables, which are not modelled.
    - Python [int] is [Z].  A CVSS score (a JSON number) is a rational [Q]:
      finite numbers compare in Python as the rationals they denote.
    - A [dict] read with [.get(key, default)] is a record of [option]
      fields; [None] is a missing key.  The ordered [categories] mapping is
      the list of its items, in iteration order.
    - A keyword [set] is a [gset string]; iterating over it is [elements].
    - The regex engine used for the user's patterns ([re.compile] with
      [re.IGNORECASE], and [Pattern.search]) is a parameter of the
      development; compiling has three outcomes, a regex, [re.error], or
      another exception.  The two fixed patterns of [_match_keywords] are
      modelled directly.
    - A function that an uncaught exception can leave returns an [option];
      [None] is the exception. *)

From Stdlib Require Import ZArith QArith Ascii.
From stdpp Require Import gmap strings list sorting.

Local Close Scope Q_scope.
Local Open Scope Z_scope.

(** ** Python text primitives *)

Module Text.

(** A text of ASCII characters only: every code point is below 128. *)
Definition is_ascii_char (c : ascii) : bool := (N_of_ascii c <? 128)%N.

Fixpoint is_ascii (s : string) : bool :=
  match s with
  | EmptyString => true
  | String c s' => is_ascii_char c && is_ascii s'
  end.

(** [str.lower] on one ASCII character: A-Z go to a-z. *)
Definition lower_char (c : ascii) : ascii :=
  let n := N_of_ascii c in
  if ((65 <=? n) && (n <=? 90))%N then ascii_of_N (n + 32) else c.

Fixpoint lower (s : string) : string :=
  match s with
  | EmptyString => EmptyString
  | String c s' => String (lower_char c) (lower s')
  end.

(** The characters [str.strip] removes: tab, LF, VT, FF, CR, the four
    separators FS GS RS US, and space. *)
Definition is_space (c : ascii) : bool :=
  let n := N_of_ascii c in
  ((9 <=? n) && (n <=? 13) || (28 <=? n) && (n <=? 32))%N.

Fixpoint lstrip (s : string) : string :=
  match s with
  | EmptyString => EmptyString
  | String c s' => if is_space c then lstrip s' else s
  end.

Fixpoint rstrip (s : string) : string :=
  match s with
  | EmptyString => EmptyString
  | String c s' =>
      match rstrip s' with
      | EmptyString => if is_space c then EmptyString else String c EmptyString
      | r => String c r
      end
  end.

Definition strip (s : string) : string := rstrip (lstrip s).

(** [sep.join(parts)] *)
Fixpoint join (sep : string) (parts : list string) : string :=
  match parts with
  | [] => EmptyString
  | [p] => p
  | p :: rest => p +:+ sep +:+ join sep rest
  end.

Fixpoint startswith (s p : string) : bool :=
  match p, s with
  | EmptyString, _ => true
  | String a p', String b s' => bool_decide (a = b) && startswith s' p'
  | String _ _, EmptyString => false
  end.

(** [needle in hay] on strings: substring containment. *)
Fixpoint str_in (needle hay : string) : bool :=
  startswith hay needle ||
  match hay with
  | EmptyString => false
  | String _ hay' => str_in needle hay'
  end.

(** The regex class [\w] on an ASCII character: letters, digits and
    underscore.  (On other characters Python asks the Unicode tables.) *)
Definition is_word (c : ascii) : bool :=
  let n := N_of_ascii c in
  ((48 <=? n) && (n <=? 57) || (65 <=? n) && (n <=? 90)
   || (n =? 95) || (97 <=? n) && (n <=? 122))%N.

(** [re.match(r'^[\w]+$', s)]: one or more word characters up to the end
    of the string; [$] also matches just before a final newline. *)
Fixpoint word_tail (s : string) : bool :=
  match s with
  | EmptyString => true
  | String c EmptyString => is_word c || bool_decide (c = "010"%char)
  | String c s' => is_word c && word_tail s'
  end.

Definition re_match_word (s : string) : bool :=
  match s with
  | EmptyString => false
  | String c s' => is_word c && word_tail s'
  end.

(** [\b]: a position between a word character and a non-word character,
    the two ends of the string counting as non-word. *)
Definition word_at (o : option ascii) : bool := from_option is_word false o.

Definition boundary (before after : option ascii) : bool :=
  xorb (word_at before) (word_at after).

Definition head (s : string) : option ascii :=
  match s with
  | EmptyString => None
  | String c _ => Some c
  end.

(** The escaped keyword is a literal; under [re.IGNORECASE] two ASCII
    characters agree when their lower-case forms do.  (A character outside
    ASCII can also fold to an ASCII letter in Python; such text is outside
    [is_ascii].)  On success the result is the last character before the
    rest, and the rest. *)
Fixpoint match_literal (lit t : string) (prev : option ascii)
  : option (option ascii * string) :=
  match lit with
  | EmptyString => Some (prev, t)
  | String k lit' =>
      match t with
      | EmptyString => None
      | String c t' =>
          if bool_decide (lower_char k = lower_char c)
          then match_literal lit' t' (Some c)
          else None
      end
  end.

Definition match_bounded_at (lit : string) (prev : option ascii) (t : string) : bool :=
  boundary prev (head t) &&
  match match_literal lit t prev with
  | Some (last, rest) => boundary last (head rest)
  | None => false
  end.

Fixpoint search_bounded (lit : string) (prev : option ascii) (t : string) : bool :=
  match_bounded_at lit prev t ||
  match t with
  | EmptyString => false
  | String c t' => search_bounded lit (Some c) t'
  end.

(** [re.search(r'\b' + re.escape(lit) + r'\b', text, re.IGNORECASE)] *)
Definition re_search_bounded (lit text : string) : bool :=
  search_bounded lit None text.

End Text.

(** ** Python containers *)

Module Py.

(** [d[k] = v] on an insertion-ordered dict, kept as the list of its
    items: an existing key keeps its place and takes the new value, a new
    key goes to the end. *)
Fixpoint dict_set {V : Type} (d : list (string * V)) (k : string) (v : V)
  : list (string * V) :=
  match d with
  | [] => [(k, v)]
  | (k', v') :: d' =>
      if bool_decide (k' = k) then (k, v) :: d' else (k', v') :: dict_set d' k v
  end.

(** Truth value of a list or of a dict: non-empty. *)
Definition truthy {A : Type} (l : list A) : bool :=
  match l with [] => false | _ :: _ => true end.

(** [l[:n]]: the first [n] elements; a negative [n] counts from the end
    and leaves out the last [-n] elements. *)
Definition slice_to {A : Type} (l : list A) (n : Z) : list A :=
  if 0 <=? n then take (Z.to_nat n) l
  else take (length l - Z.to_nat (- n))%nat l.

(** [list.sort(key=key)] is a stable ascending sort.  It is modelled by
    insertion from the right: an element is put before the first element
    of the sorted rest whose key is not below its own, so equal keys keep
    their order.  A sorted list with these classes of equal keys is unique
    ([descending_stable_unique] below, and likewise ascending), so the
    result does not depend on the sorting algorithm. *)
Fixpoint insert_by {A : Type} (key : A → Z) (x : A) (l : list A) : list A :=
  match l with
  | [] => [x]
  | y :: l' => if key x <=? key y then x :: l else y :: insert_by key x l'
  end.

Definition sort_by {A : Type} (key : A → Z) (l : list A) : list A :=
  foldr (insert_by key) [] l.

(** [list.sort(key=key, reverse=True)]: as CPython does it, the list is
    reversed, sorted ascending with the stable sort, and reversed again. *)
Definition sort {A : Type} (key : A → Z) (rev : bool) (l : list A) : list A :=
  if rev then reverse (sort_by key (reverse l)) else sort_by key l.

End Py.

(** ** Data model *)

(** One entry of the [categories] mapping. *)
Record CategoryData := {
  cat_name : option string;
  cat_keywords : option (list string)
}.

(** One entry of [regex_patterns.patterns]; the code indexes ['pattern']
    directly and reads ['description'] with a default. *)
Record PatternConfig := {
  pc_pattern : string;
  pc_description : option string
}.

Record RegexConfig := {
  rx_enabled : option bool;
  rx_patterns : option (list PatternConfig)
}.

Record SeverityConfig := {
  sev_enabled : option bool;
  sev_min_cvss : option Q;
  sev_levels : option (list string)
}.

Record Weights := {
  exact_match : option Z;
  category_match : option Z;
  regex_match : option Z;
  severity_critical : option Z;
  severity_high : option Z;
  severity_medium : option Z
}.

Record RankingConfig := {
  rk_enabled : option bool;
  rk_weights : option Weights;
  rk_max_results : option Z
}.

Record Config := {
  cfg_categories : option (list (string * CategoryData));
  cfg_regex_patterns : option RegexConfig;
  cfg_severity : option SeverityConfig;
  cfg_ranking : option RankingConfig
}.

(** The empty dict [{}] that [.get(section, {})] falls back to. *)
Definition no_regex_config : RegexConfig :=
  {| rx_enabled := None; rx_patterns := None |}.
Definition no_severity_config : SeverityConfig :=
  {| sev_enabled := None; sev_min_cvss := None; sev_levels := None |}.
Definition no_weights : Weights :=
  {| exact_match := None; category_match := None; regex_match := None;
     severity_critical := None; severity_high := None; severity_medium := None |}.
Definition no_ranking_config : RankingConfig :=
  {| rk_enabled := None; rk_weights := None; rk_max_results := None |}.

Record Advisory := {
  adv_id : option string;
  adv_description : option string;
  adv_summary : option string;
  adv_title : option string;
  adv_references : option (list string);
  adv_severity : option string;
  adv_cvssScore : option Q;
  adv_url : option string;
  adv_publishedDate : option string
}.

(** An element of [matched_patterns]. *)
Record MatchedPattern := {
  mp_description : string;
  mp_pattern : string
}.

Record Matches := {
  matched_keywords : list (string * list string);
  matched_categories : list string;
  matched_patterns : list MatchedPattern
}.

Record ScoredResult := {
  advisory : Advisory;
  matches : Matches;
  relevance_score : Z
}.

(** [x < y] on scores. *)
Definition Qltb (x y : Q) : bool :=
  Qnum x * Zpos (Qden y) <? Qnum y * Zpos (Qden x).

(** ** The filter *)

(** What a call of [re.compile] does: it returns a compiled regex, raises
    [re.error], or raises another exception ([OverflowError] for a repeat
    count that is too large, [RecursionError] for too deep a nesting). *)
Inductive Compile (R : Type) : Type :=
  | Compiled (compiled : R)
  | ReError
  | OtherError.

Arguments Compiled {R} compiled.
Arguments ReError {R}.
Arguments OtherError {R}.

Section AdvisoryFilter.

(** The regex engine: [re_compile p] is [re.compile(p, re.IGNORECASE)];
    [re_search r text] is the truth value of [r.search(text)]. *)
Context {Regex : Type}.
Variable re_compile : string → Compile Regex.
Variable re_search : Regex → string → bool.

(** An element of [self.regex_patterns]. *)
Record CompiledPattern := {
  pattern : Regex;
  description : string;
  original : string
}.

(** The attributes of an [AdvisoryFilter] instance. *)
Record AdvisoryFilter := {
  config : Config;
  keywords : gmap string (gset string);
  regex_patterns : list CompiledPattern
}.

Definition _extract_keywords (config : Config) : gmap string (gset string) :=
  let categories := default [] (cfg_categories config) in
  fold_left
    (fun keywords '(category_id, category_data) =>
       let category_keywords :=
         fold_left
           (fun category_keywords keyword =>
              let normalized := Text.lower (Text.strip keyword) in
              category_keywords ∪ {[ normalized ]})
           (default [] (cat_keywords category_data)) ∅ in
       <[ category_id := category_keywords ]> keywords)
    categories ∅.

(** The body of the loop in [_compile_regex_patterns]: the entry built in
    the [try] block; [ReError] when [re.compile] raises [re.error] and the
    [except] block only prints; [OtherError] when it raises an exception
    that [except re.error] does not catch. *)
Definition compile_pattern (pattern_config : PatternConfig) : Compile CompiledPattern :=
  match re_compile (pc_pattern pattern_config) with
  | Compiled compiled =>
      Compiled {| pattern := compiled;
                  description := default "" (pc_description pattern_config);
                  original := pc_pattern pattern_config |}
  | ReError => ReError
  | OtherError => OtherError
  end.

(** [None]: an exception other than [re.error] left the loop. *)
Definition _compile_regex_patterns (config : Config) : option (list CompiledPattern) :=
  let patterns := [] in
  let regex_config := default no_regex_config (cfg_regex_patterns config) in
  if negb (default true (rx_enabled regex_config)) then Some patterns
  else
    fold_left
      (fun state pattern_config =>
         match state with
         | Some patterns =>
             match compile_pattern pattern_config with
             | Compiled entry => Some (patterns ++ [entry])
             | ReError => Some patterns
             | OtherError => None
             end
         | None => None
         end)
      (default [] (rx_patterns regex_config)) (Some patterns).

(** [__init__], after the configuration has been loaded; [None] when
    [_compile_regex_patterns] raises. *)
Definition init (config : Config) : option AdvisoryFilter :=
  let keywords := _extract_keywords config in
  match _compile_regex_patterns config with
  | Some regex_patterns =>
      Some {| config := config;
              keywords := keywords;
              regex_patterns := regex_patterns |}
  | None => None
  end.

Definition default_levels : list string := ["critical"; "high"; "medium"; "low"].

Definition _check_severity (self : AdvisoryFilter) (advisory : Advisory) : bool :=
  let severity_config := default no_severity_config (cfg_severity (config self)) in
  if negb (default true (sev_enabled severity_config)) then true
  else
    let min_cvss := default 0%Q (sev_min_cvss severity_config) in
    let allowed_levels := default default_levels (sev_levels severity_config) in
    let cvss_score := default 0%Q (adv_cvssScore advisory) in
    if Qltb cvss_score min_cvss then false
    else
      let severity := Text.lower (default "" (adv_severity advisory)) in
      if bool_decide (severity ≠ "")
         && bool_decide (severity ∉ map Text.lower allowed_levels)
      then false
      else true.

(** The test applied to one keyword of the loop in [_match_keywords]. *)
Definition keyword_matches (keyword text_lower : string) : bool :=
  if Text.re_match_word keyword
  then Text.re_search_bounded keyword text_lower
  else Text.str_in keyword text_lower.

Definition _match_keywords (self : AdvisoryFilter) (text category_id : string)
  : list string :=
  let category_keywords := default ∅ (keywords self !! category_id) in
  let text_lower := Text.lower text in
  fold_left
    (fun matched keyword =>
       if keyword_matches keyword text_lower then matched ++ [keyword] else matched)
    (elements category_keywords) [].

Definition _match_regex_patterns (self : AdvisoryFilter) (text : string)
  : list MatchedPattern :=
  fold_left
    (fun matched pattern_info =>
       if re_search (pattern pattern_info) text
       then matched ++ [ {| mp_description := description pattern_info;
                            mp_pattern := original pattern_info |} ]
       else matched)
    (regex_patterns self) [].

Definition _calculate_relevance_score (self : AdvisoryFilter)
    (matches : Matches) (advisory : Advisory) : Z :=
  let ranking_config := default no_ranking_config (cfg_ranking (config self)) in
  if negb (default true (rk_enabled ranking_config)) then 1
  else
    let weights := default no_weights (rk_weights ranking_config) in
    let score := 0 in
    let total_keyword_matches :=
      foldr Z.add 0
        (map (fun kv => Z.of_nat (length (snd kv))) (matched_keywords matches)) in
    let score := score + total_keyword_matches * default 10 (exact_match weights) in
    let score := score + Z.of_nat (length (matched_categories matches))
                         * default 5 (category_match weights) in
    let score := score + Z.of_nat (length (matched_patterns matches))
                         * default 7 (regex_match weights) in
    let severity := Text.lower (default "" (adv_severity advisory)) in
    if bool_decide (severity = "critical") then
      score + default 15 (severity_critical weights)
    else if bool_decide (severity = "high") then
      score + default 10 (severity_high weights)
    else if bool_decide (severity = "medium") then
      score + default 5 (severity_medium weights)
    else score.

(** The text the matchers read: id, description, summary, title and the
    references, joined by single spaces. *)
Definition searchable_text (advisory : Advisory) : string :=
  Text.join " "
    [ default "" (adv_id advisory);
      default "" (adv_description advisory);
      default "" (adv_summary advisory);
      default "" (adv_title advisory);
      Text.join " " (default [] (adv_references advisory)) ].

(** One round of the loop over the categories in [filter_advisory]; the
    state is the pair of [matched_keywords] and [matched_categories]. *)
Definition match_category (self : AdvisoryFilter) (text : string)
    (state : list (string * list string) * list string)
    (item : string * CategoryData)
  : list (string * list string) * list string :=
  let '(matched_keywords, matched_categories) := state in
  let '(category_id, category_data) := item in
  let category_name := default category_id (cat_name category_data) in
  let keywords := _match_keywords self text category_id in
  if Py.truthy keywords
  then (Py.dict_set matched_keywords category_name keywords,
        matched_categories ++ [category_name])
  else (matched_keywords, matched_categories).

Definition match_categories (self : AdvisoryFilter) (text : string)
  : list (string * list string) * list string :=
  fold_left (match_category self text)
    (default [] (cfg_categories (config self))) ([], []).

Definition filter_advisory (self : AdvisoryFilter) (advisory : Advisory)
  : option ScoredResult :=
  if negb (_check_severity self advisory) then None
  else
    let text := searchable_text advisory in
    let '(matched_keywords, matched_categories) := match_categories self text in
    let matched_patterns := _match_regex_patterns self text in
    if negb (Py.truthy matched_keywords) && negb (Py.truthy matched_patterns)
    then None
    else
      let matches := {| matched_keywords := matched_keywords;
                        matched_categories := matched_categories;
                        matched_patterns := matched_patterns |} in
      let relevance_score := _calculate_relevance_score self matches advisory in
      Some {| advisory := advisory;
              matches := matches;
              relevance_score := relevance_score |}.

(** The collecting loop of [filter_advisories]. *)
Definition collect (self : AdvisoryFilter) (advisories : list Advisory)
  : list ScoredResult :=
  fold_left
    (fun filtered advisory =>
       match filter_advisory self advisory with
       | Some result => filtered ++ [result]
       | None => filtered
       end)
    advisories [].

Definition filter_advisories (self : AdvisoryFilter) (advisories : list Advisory)
  : list ScoredResult :=
  let filtered := collect self advisories in
  let filtered := Py.sort relevance_score true filtered in
  let max_results :=
    default 20 (rk_max_results (default no_ranking_config (cfg_ranking (config self)))) in
  Py.slice_to filtered max_results.

End AdvisoryFilter.

Arguments CompiledPattern : clear implicits.
Arguments AdvisoryFilter : clear implicits.

(** ** Sample data *)

Module Sample.

(** A small instance of the regex engine: a pattern made only of letters,
    digits, spaces and hyphens is a literal, searched without regard to
    case; the pattern "a{4294967296}" raises [OverflowError], as it does in
    Python; this instance answers [re.error] to every other pattern, as
    Python does to "(" or "[a-". *)
Definition is_plain (c : ascii) : bool :=
  Text.is_word c || bool_decide (c = " "%char) || bool_decide (c = "-"%char).

Fixpoint all_plain (s : string) : bool :=
  match s with
  | EmptyString => true
  | String c s' => is_plain c && all_plain s'
  end.

Definition compile (p : string) : Compile string :=
  if all_plain p then Compiled (Text.lower p)
  else if bool_decide (p = "a{4294967296}") then OtherError
  else ReError.

(** The instance that [__init__] builds from a configuration that has no
    regex patterns. *)
Definition instance (config : Config) : AdvisoryFilter string :=
  {| config := config;
     keywords := _extract_keywords config;
     regex_patterns := [] |}.

Definition search (r text : string) : bool := Text.str_in r (Text.lower text).

Definition category (name : option string) (kws : list string) : CategoryData :=
  {| cat_name := name; cat_keywords := Some kws |}.

(** The scenario of the specification: one category, a CVSS floor of 7.0,
    default weights, two advisories. *)
Definition injection_config : Config :=
  {| cfg_categories :=
       Some [("injection", category None ["sql injection"; "xss"])];
     cfg_regex_patterns := None;
     cfg_severity :=
       Some {| sev_enabled := None; sev_min_cvss := Some (7 # 1)%Q;
               sev_levels := None |};
     cfg_ranking := None |}.

Definition cve_0001 : Advisory :=
  {| adv_id := Some "CVE-2024-0001";
     adv_description := Some "SQL Injection vulnerability in widget";
     adv_summary := None; adv_title := None; adv_references := None;
     adv_severity := Some "critical"; adv_cvssScore := Some (98 # 10)%Q;
     adv_url := None; adv_publishedDate := None |}.

Definition cve_0002 : Advisory :=
  {| adv_id := Some "CVE-2024-0002";
     adv_description := Some "XSS issue";
     adv_summary := None; adv_title := None; adv_references := None;
     adv_severity := Some "low"; adv_cvssScore := Some (3 # 1)%Q;
     adv_url := None; adv_publishedDate := None |}.

Definition injection_filter : AdvisoryFilter string :=
  instance injection_config.

Definition batch_of_two : list Advisory := [cve_0001; cve_0002].

(** The result expected for the first advisory. *)
Definition cve_0001_result : ScoredResult :=
  {| advisory := cve_0001;
     matches := {| matched_keywords := [("injection", ["sql injection"])];
                   matched_categories := ["injection"];
                   matched_patterns := [] |};
     relevance_score := 30 |}.

(** An advisory that only carries a description. *)
Definition described (text : string) : Advisory :=
  {| adv_id := None; adv_description := Some text; adv_summary := None;
     adv_title := None; adv_references := None; adv_severity := None;
     adv_cvssScore := None; adv_url := None; adv_publishedDate := None |}.

(** A configuration made of categories only. *)
Definition categories_only (cats : list (string * CategoryData)) : Config :=
  {| cfg_categories := Some cats; cfg_regex_patterns := None;
     cfg_severity := None; cfg_ranking := None |}.

Definition logging_config : Config :=
  categories_only [("logging", category None ["Log4j"; "apache-struts"])].

Definition logging_filter : AdvisoryFilter string := instance logging_config.

Definition blank_keyword_config : Config :=
  categories_only [("misc", category None ["  "])].

Definition blank_keyword_filter : AdvisoryFilter string :=
  instance blank_keyword_config.

(** A result cap below zero, over the injection category. *)
Definition capped_config (max_results : Z) : Config :=
  {| cfg_categories := Some [("injection", category None ["sql injection"; "xss"])];
     cfg_regex_patterns := None;
     cfg_severity := None;
     cfg_ranking := Some {| rk_enabled := None; rk_weights := None;
                            rk_max_results := Some max_results |} |}.

Definition negative_cap_filter : AdvisoryFilter string :=
  instance (capped_config (-1)).

(** A result cap of one. *)
Definition cap_one_filter : AdvisoryFilter string :=
  instance (capped_config 1).

(** Two categories, with different ids, that share a display name. *)
Definition shared_name_config : Config :=
  categories_only [("web_a", category (Some "Web") ["xss"]);
                   ("web_b", category (Some "Web") ["csrf"])].

Definition shared_name_filter : AdvisoryFilter string :=
  instance shared_name_config.

(** Three categories with pairwise distinct display names; the second one
    has no display name and goes by its id. *)
Definition stack_config : Config :=
  categories_only [("web", category (Some "Web") ["xss"; "csrf"]);
                   ("db", category None ["sql injection"]);
                   ("log", category (Some "Logging") ["log4j"])].

Definition stack_filter : AdvisoryFilter string := instance stack_config.

(** An advisory that names the third category's keyword before the two
    keywords of the first one, and none of the second. *)
Definition stack_advisory : Advisory :=
  described "log4j flaw enables XSS and CSRF".

Definition xss_config : Config :=
  categories_only [("injection", category None ["xss"])].

Definition xss_filter : AdvisoryFilter string := instance xss_config.

Definition xss_batch : list Advisory := [described "xss one"; described "xss two"].

(** Ranking switched off, over the xss category. *)
Definition unranked_filter : AdvisoryFilter string :=
  instance
    {| cfg_categories := Some [("injection", category None ["xss"])];
       cfg_regex_patterns := None;
       cfg_severity := None;
       cfg_ranking := Some {| rk_enabled := Some false; rk_weights := None;
                              rk_max_results := None |} |}.

(** A configuration of three regex patterns around [middle]. *)
Definition patterns_config (middle : string) : Config :=
  {| cfg_categories := None;
     cfg_regex_patterns :=
       Some {| rx_enabled := None;
               rx_patterns :=
                 Some [ {| pc_pattern := "remote code"; pc_description := None |};
                        {| pc_pattern := middle; pc_description := Some "middle" |};
                        {| pc_pattern := "CVE-2024";
                           pc_description := Some "this year" |} ] |};
     cfg_severity := None; cfg_ranking := None |}.

(** What [__init__] builds when the middle pattern is "(". *)
Definition patterns_filter : AdvisoryFilter string :=
  {| config := patterns_config "(";
     keywords := ∅;
     regex_patterns :=
       [ {| pattern := "remote code"; description := ""; original := "remote code" |};
         {| pattern := "cve-2024"; description := "this year";
            original := "CVE-2024" |} ] |}.

(** What [xss_filter] returns for an advisory described by a text that
    has the token "xss". *)
Definition xss_result (text : string) : ScoredResult :=
  {| advisory := described text;
     matches := {| matched_keywords := [("injection", ["xss"])];
                   matched_categories := ["injection"];
                   matched_patterns := [] |};
     relevance_score := 15 |}.

End Sample.

(** ** Vocabulary of the statements *)

(** The last character of [prev] followed by [s]. *)
Fixpoint last_of (prev : option ascii) (s : string) : option ascii :=
  match s with
  | EmptyString => prev
  | String c s' => last_of (Some c) s'
  end.

(** [kw] occurs in [t] somewhere. *)
Definition substring_of (kw t : string) : Prop :=
  ∃ pre post, t = pre +:+ kw +:+ post.

(** [kw] occurs in [t] as a whole token: no word character stands directly
    before or directly after the occurrence. *)
Definition whole_token_of (kw t : string) : Prop :=
  ∃ pre post, t = pre +:+ kw +:+ post
              ∧ Text.word_at (last_of None pre) = false
              ∧ Text.word_at (Text.head post) = false.

(** The pattern string [p] makes [re.compile] raise an exception other
    than [re.error]. *)
Definition raises_other {Regex : Type} (re_compile : string → Compile Regex)
    (p : string) : bool :=
  match re_compile p with
  | OtherError => true
  | _ => false
  end.

(** The entry that a configured pattern contributes when it compiles. *)
Definition compiled_entry {Regex : Type} (re_compile : string → Compile Regex)
    (pattern_config : PatternConfig) : option (CompiledPattern Regex) :=
  match compile_pattern re_compile pattern_config with
  | Compiled entry => Some entry
  | _ => None
  end.

(** [s] is not empty and consists of word characters only. *)
Fixpoint all_word (s : string) : bool :=
  match s with
  | EmptyString => true
  | String c s' => Text.is_word c && all_word s'
  end.

Definition only_word_chars (s : string) : bool :=
  match s with
  | EmptyString => false
  | String _ _ => all_word s
  end.

(** [x] stands at an earlier position of [l] than [y]. *)
Definition before {A : Type} (x y : A) (l : list A) : Prop :=
  ∃ l1 l2 l3, l = l1 ++ x :: l2 ++ y :: l3.

(** The display name of a category: its ['name'], else its id. *)
Definition display_name (item : string * CategoryData) : string :=
  default (fst item) (cat_name (snd item)).

(** The normalization of [_extract_keywords]: [keyword.strip().lower()]. *)
Definition normalize (raw : string) : string := Text.lower (Text.strip raw).

(** The strings that [filter_advisory] joins into the searchable text. *)
Definition searchable_fields (a : Advisory) : list string :=
  [ default "" (adv_id a); default "" (adv_description a);
    default "" (adv_summary a); default "" (adv_title a) ]
  ++ default [] (adv_references a).

(** ** The output of the script *)

(** The dict that [main] prints, once the two files are loaded.  Its
    ['filter_efficiency'] entry, a float formatted to one decimal, is not
    part of the model.  [main_output] is [None] when [__init__] raises and
    nothing is printed. *)
Record FilteredBatch := {
  total_advisories : Z;
  filtered_advisories : Z;
  results : list ScoredResult;
  categories_used : Z;
  regex_patterns_used : Z
}.

Definition main_output {Regex : Type} (re_compile : string → Compile Regex)
    (re_search : Regex → string → bool) (config : Config) (advisories : list Advisory)
  : option FilteredBatch :=
  match init re_compile config with
  | Some filter_engine =>
      let filtered_results := filter_advisories re_search filter_engine advisories in
      Some {| total_advisories := Z.of_nat (length advisories);
              filtered_advisories := Z.of_nat (length filtered_results);
              results := filtered_results;
              categories_used := Z.of_nat (size (keywords filter_engine));
              regex_patterns_used := Z.of_nat (length (regex_patterns filter_engine)) |}
  | None => None
  end.

(** ** The notification generator (scripts/generate_notification.py) *)

Module Notification.

Definition SEVERITY_EMOJIS : gmap string string :=
  list_to_map [ ("critical", "🔴"); ("high", "🟠"); ("medium", "🟡");
                ("low", "🟢"); ("unknown", "⚪") ].

Definition MAX_DESCRIPTION_LENGTH : nat := 300.
Definition TRUNCATION_SUFFIX : string := "...".
Definition TEAMS_MAX_DESCRIPTION_LENGTH : nat := 150.

Definition _get_severity_emoji (severity : string) : string :=
  let severity_lower :=
    match severity with
    | EmptyString => "unknown"
    | String _ _ => Text.lower severity
    end in
  default "⚪" (SEVERITY_EMOJIS !! severity_lower).

(** [s[:n]] for [n] not negative. *)
Fixpoint str_take (n : nat) (s : string) : string :=
  match n, s with
  | S n', String c s' => String c (str_take n' s')
  | _, _ => EmptyString
  end.

(** The truncation of a description, as [_format_advisory_summary] does it
    with [MAX_DESCRIPTION_LENGTH] and [generate_teams_payload] with
    [TEAMS_MAX_DESCRIPTION_LENGTH]. *)
Definition truncate (max_length : nat) (description : string) : string :=
  if (max_length <? String.length description)%nat
  then str_take (max_length - String.length TRUNCATION_SUFFIX) description
       +:+ TRUNCATION_SUFFIX
  else description.

(** The counting loop of [generate_markdown]. *)
Definition severity_counts (results : list ScoredResult) : gmap string Z :=
  fold_left
    (fun severity_counts result =>
       let severity := Text.lower (default "UNKNOWN" (adv_severity (advisory result))) in
       <[ severity := default 0 (severity_counts !! severity) + 1 ]> severity_counts)
    results ∅.

End Notification.

(** ** The model at work *)

Example lower_mixed : Text.lower "SQL Injection-42" = "sql injection-42".
Proof. reflexivity. Qed.

Example strip_both : Text.strip "  Log4J  " = "Log4J".
Proof. reflexivity. Qed.

Example xss_token : Text.re_search_bounded "xss" "xss vulnerability" = true.
Proof. reflexivity. Qed.

Example xss_inside : Text.re_search_bounded "xss" "taxssystem" = false.
Proof. reflexivity. Qed.

Example log4j_is_word : Text.re_match_word "log4j" = true.
Proof. reflexivity. Qed.

Example log4j_inside : Text.re_search_bounded "log4j" "uses log4j2-core" = false.
Proof. reflexivity. Qed.

Example slice_negative : Py.slice_to [1; 2; 3] (-1) = [1; 2].
Proof. reflexivity. Qed.

Example sort_reverse_keeps_ties :
  Py.sort fst true [(1, "a"); (2, "b"); (1, "c"); (2, "d")]
  = [(2, "b"); (2, "d"); (1, "a"); (1, "c")].
Proof. reflexivity. Qed.

Example scenario_first :
  filter_advisory Sample.search Sample.injection_filter Sample.cve_0001
  = Some Sample.cve_0001_result.
Proof. vm_compute. reflexivity. Qed.

Example scenario_second :
  filter_advisory Sample.search Sample.injection_filter Sample.cve_0002 = None.
Proof. vm_compute. reflexivity. Qed.

Example scenario_batch :
  filter_advisories Sample.search Sample.injection_filter Sample.batch_of_two
  = [Sample.cve_0001_result].
Proof. vm_compute. reflexivity. Qed.

(** ** Facts about the primitives *)

Lemma lower_eq_empty (s : string) : Text.lower s = "" ↔ s = "".
Proof. destruct s; simpl; split; intros H; congruence. Qed.

Lemma str_in_empty (hay : string) : Text.str_in "" hay = true.
Proof. destruct hay; reflexivity. Qed.

Lemma Qltb_lt (x y : Q) : Qltb x y = true ↔ (x < y)%Q.
Proof. unfold Qltb, Qlt. apply Z.ltb_lt. Qed.

(** The loops of the code build their result by appending at the end. *)
Lemma fold_left_append_omap {A B : Type} (f : A → option B) (l : list A) (acc : list B) :
  fold_left
    (fun acc x => match f x with Some y => acc ++ [y] | None => acc end) l acc
  = acc ++ omap f l.
Proof.
  revert acc. induction l as [|x l IH]; intros acc; simpl.
  - by rewrite app_nil_r.
  - rewrite IH. destruct (f x); simpl; [|done]. by rewrite <- app_assoc.
Qed.

Lemma fold_left_append_filter {A B : Type} (p : A → bool) (g : A → B)
    (l : list A) (acc : list B) :
  fold_left (fun acc x => if p x then acc ++ [g x] else acc) l acc
  = acc ++ map g (List.filter p l).
Proof.
  revert acc. induction l as [|x l IH]; intros acc; simpl.
  - by rewrite app_nil_r.
  - rewrite IH. destruct (p x); simpl; [|done]. by rewrite <- app_assoc.
Qed.

(** ** Reading the two keyword searches *)

Lemma append_cons (c : ascii) (s t : string) :
  String c s +:+ t = String c (s +:+ t).
Proof. reflexivity. Qed.

Lemma lower_cons_fixed (c : ascii) (s : string) :
  Text.lower (String c s) = String c s → Text.lower_char c = c ∧ Text.lower s = s.
Proof. simpl. intros H. by injection H. Qed.

Lemma startswith_spec (s p : string) :
  Text.startswith s p = true ↔ ∃ post, s = p +:+ post.
Proof.
  revert s. induction p as [|a p IH]; intros s; simpl.
  - split; [intros _; by exists s|intros _; by destruct s].
  - destruct s as [|b s].
    + split; [done|]. intros [post H]. by rewrite append_cons in H.
    + simpl. rewrite andb_true_iff, bool_decide_eq_true, IH. split.
      * intros [-> [post ->]]. by exists post.
      * intros [post H]. rewrite append_cons in H. injection H as -> ->. eauto.
Qed.

Lemma str_in_spec (needle hay : string) :
  Text.str_in needle hay = true ↔ substring_of needle hay.
Proof.
  unfold substring_of. induction hay as [|c hay IH]; cbn [Text.str_in].
  - rewrite orb_false_r, startswith_spec. split.
    + intros [post H]. by exists "", post.
    + intros [[|c pre] [post H]]; [by exists post|by rewrite append_cons in H].
  - rewrite orb_true_iff, startswith_spec, IH. split.
    + intros [[post H]|(pre & post & H)].
      * by exists "", post.
      * exists (String c pre), post. by rewrite append_cons, H.
    + intros [[|c' pre] [post H]].
      * left. by exists post.
      * right. rewrite append_cons in H. injection H as -> ->. eauto.
Qed.

Lemma last_of_nonempty (p q : option ascii) (s : string) :
  s ≠ "" → last_of p s = last_of q s.
Proof. destruct s; [done|]. reflexivity. Qed.

Lemma match_literal_append (lit rest : string) (prev : option ascii) :
  Text.match_literal lit (lit +:+ rest) prev = Some (last_of prev lit, rest).
Proof.
  revert prev. induction lit as [|k lit IH]; intros prev; [done|].
  rewrite append_cons. simpl. rewrite bool_decide_eq_true_2 by done. apply IH.
Qed.

Lemma match_literal_inv (lit t : string) (prev last : option ascii) (rest : string) :
  Text.lower lit = lit → Text.lower t = t →
  Text.match_literal lit t prev = Some (last, rest) →
  t = lit +:+ rest ∧ last = last_of prev lit.
Proof.
  revert t prev. induction lit as [|k lit IH]; intros t prev Hlit Ht; simpl.
  - intros [= -> ->]. done.
  - destruct t as [|c t]; [done|].
    apply lower_cons_fixed in Hlit as [Hk Hlit].
    apply lower_cons_fixed in Ht as [Hc Ht].
    case_bool_decide as Hkc; [|done]. rewrite Hk, Hc in Hkc. subst c.
    intros H. apply IH in H as [-> ->]; done.
Qed.

Section WordKeyword.

(** A lower-case keyword that begins and ends with a word character,
    searched in a lower-case text. *)
Variables kw : string.
Hypothesis kw_lower : Text.lower kw = kw.
Hypothesis kw_first : Text.word_at (Text.head kw) = true.
Hypothesis kw_last : Text.word_at (last_of None kw) = true.

Lemma kw_nonempty : kw ≠ "".
Proof. intros ->. done. Qed.

Lemma head_kw_append (post : string) : Text.head (kw +:+ post) = Text.head kw.
Proof. pose proof kw_nonempty. by destruct kw. Qed.

Lemma match_bounded_at_spec (prev : option ascii) (t : string) :
  Text.lower t = t →
  Text.match_bounded_at kw prev t = true ↔
    ∃ post, t = kw +:+ post
            ∧ Text.word_at prev = false
            ∧ Text.word_at (Text.head post) = false.
Proof.
  intros Ht. unfold Text.match_bounded_at, Text.boundary. split.
  - intros [Hl Hr]%andb_true_iff.
    destruct (Text.match_literal kw t prev) as [[last rest]|] eqn:Hm; [|done].
    apply match_literal_inv in Hm as [-> ->]; [|done..].
    rewrite head_kw_append, kw_first in Hl.
    rewrite (last_of_nonempty prev None), kw_last in Hr by apply kw_nonempty.
    exists rest. split; [done|].
    split; [by destruct (Text.word_at prev)|by destruct (Text.word_at (Text.head rest))].
  - intros (post & -> & Hp & Hq).
    rewrite match_literal_append, head_kw_append, kw_first, Hp.
    rewrite (last_of_nonempty prev None), kw_last, Hq by apply kw_nonempty.
    done.
Qed.

Lemma search_bounded_spec (prev : option ascii) (t : string) :
  Text.lower t = t →
  Text.search_bounded kw prev t = true ↔
    ∃ pre post, t = pre +:+ kw +:+ post
                ∧ Text.word_at (last_of prev pre) = false
                ∧ Text.word_at (Text.head post) = false.
Proof.
  revert prev. induction t as [|c t IH]; intros prev Ht.
  - cbn [Text.search_bounded]. rewrite orb_false_r, match_bounded_at_spec by done. split.
    + intros (post & H & ? & ?). by exists "", post.
    + intros ([|c pre] & post & H & ? & ?); [by exists post|].
      by rewrite append_cons in H.
  - pose proof (lower_cons_fixed _ _ Ht) as [_ Ht'].
    cbn [Text.search_bounded]. rewrite orb_true_iff, match_bounded_at_spec, IH by done. split.
    + intros [(post & H & ? & ?)|(pre & post & H & ? & ?)].
      * by exists "", post.
      * exists (String c pre), post. by rewrite append_cons, H.
    + intros ([|c' pre] & post & H & Hp & Hq).
      * left. by exists post.
      * right. rewrite append_cons in H. injection H as -> ->.
        by exists pre, post.
Qed.

(** The word-boundary search finds exactly the whole-token occurrences. *)
Lemma re_search_bounded_spec (t : string) :
  Text.lower t = t →
  Text.re_search_bounded kw t = true ↔ whole_token_of kw t.
Proof. intros Ht. by apply search_bounded_spec. Qed.

End WordKeyword.

Lemma lower_char_idemp (c : ascii) :
  Text.lower_char (Text.lower_char c) = Text.lower_char c.
Proof. by destruct c as [[] [] [] [] [] [] [] []]. Qed.

Lemma lower_idemp (s : string) : Text.lower (Text.lower s) = Text.lower s.
Proof. induction s as [|c s IH]; simpl; [done|]. by rewrite lower_char_idemp, IH. Qed.

(** ** Facts about the containers *)

Section ListFacts.

Context {A : Type}.
Implicit Types (x y : A) (l : list A).

Lemma before_sublist x y l : before x y l ↔ [x; y] `sublist_of` l.
Proof.
  unfold before. rewrite sublist_cons_l. split.
  - intros (l1 & l2 & l3 & ->). exists l1, (l2 ++ y :: l3). split; [done|].
    apply sublist_cons_l. exists l2, l3. split; [done|apply sublist_nil_l].
  - intros (l1 & k & -> & (l2 & l3 & -> & _)%sublist_cons_l). by exists l1, l2, l3.
Qed.

Lemma before_take x y l (n : nat) : before x y (take n l) → before x y l.
Proof.
  rewrite !before_sublist. intros H. etrans; [exact H|apply sublist_take].
Qed.

Lemma before_prefix x y l k : l `prefix_of` k → before x y l → before x y k.
Proof.
  intros [k' ->] (l1 & l2 & l3 & ->). exists l1, l2, (l3 ++ k').
  by rewrite <- !app_assoc, <- !app_comm_cons, <- app_assoc.
Qed.

Lemma before_filter (P : A → Prop) `{!∀ x, Decision (P x)} x y l :
  before x y (filter P l) → before x y l.
Proof.
  rewrite !before_sublist. intros Hb. etrans; [exact Hb|apply sublist_filter].
Qed.

Lemma before_into_filter (P : A → Prop) `{!∀ x, Decision (P x)} x y l :
  P x → P y → before x y l → before x y (filter P l).
Proof.
  intros Hx Hy (l1 & l2 & l3 & ->).
  exists (filter P l1), (filter P l2), (filter P l3).
  rewrite filter_app, filter_cons_True, filter_app, filter_cons_True; done.
Qed.

Lemma filter_take_prefix (P : A → Prop) `{!∀ x, Decision (P x)} l (n : nat) :
  filter P (take n l) `prefix_of` filter P l.
Proof.
  exists (filter P (drop n l)). by rewrite <- filter_app, take_drop.
Qed.

End ListFacts.

Lemma omap_split {A B : Type} (f : A → option B) (l : list A) (k1 k2 : list B) (y : B) :
  omap f l = k1 ++ y :: k2 →
  ∃ l1 x l2, l = l1 ++ x :: l2 ∧ f x = Some y ∧ omap f l1 = k1 ∧ omap f l2 = k2.
Proof.
  revert k1. induction l as [|a l IH]; intros k1; simpl.
  - by destruct k1.
  - destruct (f a) as [b|] eqn:Hfa.
    + destruct k1 as [|b' k1]; simpl; intros [= -> Hk].
      * by exists [], a, l.
      * destruct (IH _ Hk) as (l1 & x & l2 & -> & Hx & <- & <-).
        exists (a :: l1), x, l2. simpl. by rewrite Hfa.
    + intros Hk. destruct (IH _ Hk) as (l1 & x & l2 & -> & Hx & <- & <-).
      exists (a :: l1), x, l2. simpl. by rewrite Hfa.
Qed.

(** Two results that follow each other in [omap f l] come from two elements
    of [l] that follow each other. *)
Lemma before_omap {A B : Type} (f : A → option B) (l : list A) (y1 y2 : B) :
  before y1 y2 (omap f l) →
  ∃ x1 x2, before x1 x2 l ∧ f x1 = Some y1 ∧ f x2 = Some y2.
Proof.
  intros (k1 & k2 & k3 & Hk).
  apply omap_split in Hk as (l1 & x1 & l' & -> & Hx1 & _ & Hk).
  apply omap_split in Hk as (l2 & x2 & l3 & -> & Hx2 & _ & _).
  exists x1, x2. split; [|done]. by exists l1, l2, l3.
Qed.

Section SliceFacts.

Context {A : Type}.
Implicit Types (l : list A) (n : Z).

Lemma slice_to_take l n : ∃ k : nat, Py.slice_to l n = take k l.
Proof. unfold Py.slice_to. destruct (0 <=? n); eauto. Qed.

Lemma slice_to_length l n : 0 ≤ n → Z.of_nat (length (Py.slice_to l n)) ≤ n.
Proof.
  intros Hn. unfold Py.slice_to. rewrite (proj2 (Z.leb_le 0 n)) by done.
  rewrite length_take. lia.
Qed.

Lemma slice_to_zero l : Py.slice_to l 0 = [].
Proof. reflexivity. Qed.

Lemma slice_to_all l n : Z.of_nat (length l) ≤ n → Py.slice_to l n = l.
Proof.
  intros Hn. unfold Py.slice_to. rewrite (proj2 (Z.leb_le 0 n)) by lia.
  apply take_ge. lia.
Qed.

End SliceFacts.

Section SortFacts.

Context {A : Type}.
Variable key : A → Z.
Implicit Types (x y : A) (l : list A) (s : Z).

Lemma insert_by_perm x l : Py.insert_by key x l ≡ₚ x :: l.
Proof.
  induction l as [|y l IH]; simpl; [done|].
  destruct (key x <=? key y); [done|]. by rewrite IH, Permutation_swap.
Qed.

Lemma sort_by_perm l : Py.sort_by key l ≡ₚ l.
Proof.
  induction l as [|x l IH]; simpl; [done|]. by rewrite insert_by_perm, IH.
Qed.

Lemma sort_perm (rev : bool) l : Py.sort key rev l ≡ₚ l.
Proof.
  unfold Py.sort. destruct rev; [|apply sort_by_perm].
  by rewrite reverse_Permutation, sort_by_perm, reverse_Permutation.
Qed.

(** Stability: inserting [x] passes only elements with a smaller key, so
    the elements of each key keep their order. *)
Lemma filter_insert_by s x l :
  filter (fun y => key y = s) (Py.insert_by key x l)
  = filter (fun y => key y = s) (x :: l).
Proof.
  induction l as [|y l IH]; simpl; [done|].
  destruct (key x <=? key y) eqn:Hle; [done|].
  apply Z.leb_gt in Hle.
  rewrite (filter_cons _ y), IH, (filter_cons _ x), (filter_cons _ x), (filter_cons _ y).
  repeat case_decide; try done. lia.
Qed.

Lemma filter_sort_by s l :
  filter (fun y => key y = s) (Py.sort_by key l) = filter (fun y => key y = s) l.
Proof.
  induction l as [|x l IH]; simpl; [done|].
  by rewrite filter_insert_by, !filter_cons, IH.
Qed.

Lemma filter_sort s (rev : bool) l :
  filter (fun y => key y = s) (Py.sort key rev l) = filter (fun y => key y = s) l.
Proof.
  unfold Py.sort. destruct rev; [|apply filter_sort_by].
  by rewrite filter_reverse, filter_sort_by, filter_reverse, reverse_involutive.
Qed.

(** The ascending sort orders the keys, and the reversed one orders them
    downwards. *)
Lemma insert_by_sorted x l :
  StronglySorted (fun a b => key a ≤ key b) l →
  StronglySorted (fun a b => key a ≤ key b) (Py.insert_by key x l).
Proof.
  induction 1 as [|y l Hs IH Hy]; simpl; [by repeat constructor|].
  destruct (key x <=? key y) eqn:Hle.
  - apply Z.leb_le in Hle. constructor; [by constructor|].
    constructor; [done|]. eapply Forall_impl; [exact Hy|]. simpl. lia.
  - apply Z.leb_gt in Hle. constructor; [done|].
    rewrite insert_by_perm. constructor; [lia|done].
Qed.

Lemma sort_by_sorted l : StronglySorted (fun a b => key a ≤ key b) (Py.sort_by key l).
Proof. induction l; simpl; [constructor|by apply insert_by_sorted]. Qed.

Lemma sorted_reverse l :
  StronglySorted (fun a b => key a ≤ key b) l →
  StronglySorted (fun a b => key b ≤ key a) (reverse l).
Proof.
  induction 1 as [|y l Hs IH Hy]; [constructor|].
  rewrite reverse_cons. apply StronglySorted_app_2; [|done|by repeat constructor].
  intros a b Ha ->%list_elem_of_singleton.
  rewrite elem_of_reverse in Ha. rewrite Forall_forall in Hy. by apply Hy.
Qed.

Lemma sort_descending l :
  StronglySorted (fun a b => key b ≤ key a) (Py.sort key true l).
Proof. apply sorted_reverse, sort_by_sorted. Qed.

(** A descending list is determined by its classes of equal keys: any
    stable descending sort of [l] returns [Py.sort key true l]. *)
Lemma descending_stable_unique l1 l2 :
  StronglySorted (fun a b => key b ≤ key a) l1 →
  StronglySorted (fun a b => key b ≤ key a) l2 →
  (∀ s, filter (fun y => key y = s) l1 = filter (fun y => key y = s) l2) →
  l1 = l2.
Proof.
  intros H1. revert l2. induction H1 as [|x l1 Hs1 IH Hx]; intros l2 H2 Hcl.
  - destruct l2 as [|y l2]; [done|].
    specialize (Hcl (key y)). by rewrite filter_cons_True in Hcl.
  - destruct H2 as [|y l2 Hs2 Hy].
    { specialize (Hcl (key x)). by rewrite filter_cons_True in Hcl. }
    rewrite Forall_forall in Hx, Hy.
    assert (Hxy : key x ≤ key y).
    { assert (Hin : x ∈ filter (fun z => key z = key x) (y :: l2)).
      { rewrite <- Hcl, filter_cons_True by done. by left. }
      apply list_elem_of_filter in Hin as [_ [->|Hin]%elem_of_cons]; [done|].
      by apply Hy. }
    assert (Hyx : key y ≤ key x).
    { assert (Hin : y ∈ filter (fun z => key z = key y) (x :: l1)).
      { rewrite Hcl, filter_cons_True by done. by left. }
      apply list_elem_of_filter in Hin as [_ [->|Hin]%elem_of_cons]; [done|].
      by apply Hx. }
    assert (x = y) as <-.
    { specialize (Hcl (key x)).
      rewrite !filter_cons_True in Hcl by lia. congruence. }
    f_equal. apply IH; [done|]. intros s. specialize (Hcl s).
    rewrite !filter_cons in Hcl. case_decide; congruence.
Qed.

Lemma sort_reverse_unique l l' :
  StronglySorted (fun a b => key b ≤ key a) l' →
  (∀ s, filter (fun y => key y = s) l' = filter (fun y => key y = s) l) →
  l' = Py.sort key true l.
Proof.
  intros Hs Hcl. apply descending_stable_unique; [done|apply sort_descending|].
  intros s. by rewrite filter_sort.
Qed.

End SortFacts.

(** ** The severity gate *)

Section SeverityGate.

Context {Regex : Type}.
Implicit Types (self : AdvisoryFilter Regex) (a : Advisory).

(** C1.  With severity filtering enabled, the gate rejects an advisory
    exactly when its CVSS score is below [min_cvss], or its severity is
    non-empty and its lower-cased value is not among the lower-cased
    allowed levels; an advisory whose severity is empty or missing is
    rejected exactly when its CVSS score is below [min_cvss]. *)
Theorem check_severity_rejects_iff self a :
  let severity_config := default no_severity_config (cfg_severity (config self)) in
  let min_cvss := default 0%Q (sev_min_cvss severity_config) in
  let allowed_levels := default default_levels (sev_levels severity_config) in
  let cvss_score := default 0%Q (adv_cvssScore a) in
  let severity := default "" (adv_severity a) in
  default true (sev_enabled severity_config) = true →
  (_check_severity self a = false ↔
     (cvss_score < min_cvss)%Q
     ∨ (severity ≠ "" ∧ Text.lower severity ∉ map Text.lower allowed_levels))
  ∧ (severity = "" →
     (_check_severity self a = false ↔ (cvss_score < min_cvss)%Q)).
Proof.
  intros sc min_cvss allowed cvss severity Hen.
  assert (Hmain : _check_severity self a = false ↔
            (cvss < min_cvss)%Q
            ∨ (severity ≠ "" ∧ Text.lower severity ∉ map Text.lower allowed)).
  { unfold _check_severity. fold sc. rewrite Hen. simpl.
    fold min_cvss allowed cvss severity.
    destruct (Qltb cvss min_cvss) eqn:Hlt.
    - split; [intros _|done]. left. by apply Qltb_lt.
    - assert (Hnlt : ¬ (cvss < min_cvss)%Q).
      { intros H%Qltb_lt. congruence. }
      destruct (bool_decide (Text.lower severity ≠ "")) eqn:Hne; simpl.
      + apply bool_decide_eq_true in Hne.
        destruct (bool_decide (Text.lower severity ∉ map Text.lower allowed)) eqn:Hin.
        * apply bool_decide_eq_true in Hin. split; [intros _|done].
          right. split; [|done]. intros He. apply Hne. by rewrite He.
        * apply bool_decide_eq_false in Hin. split; [done|].
          intros [?|[_ ?]]; contradiction.
      + apply bool_decide_eq_false in Hne. split; [done|].
        intros [?|[Hs _]]; [contradiction|].
        exfalso. apply Hne. intros He. apply Hs. by apply lower_eq_empty. }
  split; [exact Hmain|].
  intros Hempty. rewrite Hmain. split; [|by left].
  intros [?|[? _]]; [done|contradiction].
Qed.

End SeverityGate.

(** C1 at the second advisory of the scenario: CVSS 3.0 is below 7.0. *)
Lemma check_severity_rejects_iff_witness :
  _check_severity Sample.injection_filter Sample.cve_0002 = false
  ∧ (3 # 1 < 7 # 1)%Q.
Proof.
  pose proof (check_severity_rejects_iff Sample.injection_filter Sample.cve_0002
                eq_refl) as [H _].
  split; [|reflexivity].
  apply H. left. reflexivity.
Defined.

(** ** The keyword matcher *)

Section KeywordMatcher.

Context {Regex : Type}.
Implicit Types (self : AdvisoryFilter Regex) (text cid kw : string).

(** The loop keeps, in iteration order, the keywords that pass the test. *)
Lemma match_keywords_filter self text cid :
  _match_keywords self text cid
  = List.filter (fun kw => keyword_matches kw (Text.lower text))
      (elements (default ∅ (keywords self !! cid))).
Proof.
  unfold _match_keywords.
  rewrite (fold_left_append_filter _ (fun kw => kw)). simpl. apply map_id.
Qed.

Lemma elem_of_match_keywords self text cid kw :
  kw ∈ _match_keywords self text cid ↔
    kw ∈ default ∅ (keywords self !! cid)
    ∧ keyword_matches kw (Text.lower text) = true.
Proof.
  rewrite match_keywords_filter, list_elem_of_In, filter_In.
  by rewrite <- list_elem_of_In, elem_of_elements.
Qed.

(** An empty keyword passes the substring test on every text. *)
Lemma empty_keyword_always_matched self text cid :
  "" ∈ default ∅ (keywords self !! cid) → "" ∈ _match_keywords self text cid.
Proof.
  intros H. apply elem_of_match_keywords. split; [done|].
  unfold keyword_matches. simpl. apply str_in_empty.
Qed.

End KeywordMatcher.

Lemma logging_keywords :
  default ∅ (keywords Sample.logging_filter !! "logging")
  = {[ "log4j"; "apache-struts" ]}.
Proof. by vm_compute. Qed.

(** C2 as the specification words it does not hold: the text of an advisory
    that reads "uses log4j2-core" contains that phrase, and "log4j" is not
    reported, since the digit 2 follows it. *)
Lemma log4j_inside_token_counterexample :
  ¬ (∀ (self : AdvisoryFilter string) (a : Advisory) (cid : string),
        "log4j" ∈ default ∅ (keywords self !! cid) →
        substring_of "uses log4j2-core" (searchable_text a) →
        "log4j" ∈ _match_keywords self (searchable_text a) cid).
Proof.
  intros H.
  specialize (H Sample.logging_filter
                (Sample.described "uses log4j2-core") "logging").
  apply elem_of_match_keywords in H as [_ H].
  - vm_compute in H. discriminate.
  - rewrite logging_keywords. set_solver.
  - by exists " ", "   ".
Qed.

(** C3.  A keyword that is blank in the configuration is normalized to the
    empty keyword, and the matcher reports it for the text "abc", as for
    every other text. *)
Theorem empty_keyword_is_reported :
  keywords Sample.blank_keyword_filter !! "misc" = Some {[ "" ]}
  ∧ _match_keywords Sample.blank_keyword_filter "abc" "misc" = [""]
  ∧ ∀ text, "" ∈ _match_keywords Sample.blank_keyword_filter text "misc".
Proof.
  assert (Hk : keywords Sample.blank_keyword_filter !! "misc" = Some {[ "" ]})
    by (by vm_compute).
  split; [done|]. split; [by vm_compute|].
  intros text. apply empty_keyword_always_matched. rewrite Hk. simpl. set_solver.
Qed.

(** ** The pattern matcher *)

Section PatternMatcher.

Context {Regex : Type}.
Variable re_compile : string → Compile Regex.
Variable re_search : Regex → string → bool.

Implicit Types (self : AdvisoryFilter Regex) (cfg : Config).

(** The compile loop: an exception other than [re.error] ends it without a
    result; otherwise the patterns that compile are appended in order. *)
Lemma compile_loop (pcs : list PatternConfig)
    (state : option (list (CompiledPattern Regex))) :
  fold_left
    (fun state pattern_config =>
       match state with
       | Some patterns =>
           match compile_pattern re_compile pattern_config with
           | Compiled entry => Some (patterns ++ [entry])
           | ReError => Some patterns
           | OtherError => None
           end
       | None => None
       end) pcs state
  = match state with
    | Some patterns =>
        if existsb (fun pc => raises_other re_compile (pc_pattern pc)) pcs
        then None
        else Some (patterns ++ omap (compiled_entry re_compile) pcs)
    | None => None
    end.
Proof.
  revert state. induction pcs as [|pc pcs IH]; intros [acc|]; simpl.
  - by rewrite app_nil_r.
  - done.
  - rewrite IH. unfold compiled_entry, raises_other, compile_pattern.
    destruct (re_compile (pc_pattern pc)); simpl; [|done..].
    destruct (existsb _ pcs); [done|]. by rewrite <- app_assoc.
  - by rewrite IH.
Qed.

Lemma compile_regex_patterns_spec cfg :
  let regex_config := default no_regex_config (cfg_regex_patterns cfg) in
  let configured := default [] (rx_patterns regex_config) in
  _compile_regex_patterns re_compile cfg
  = if default true (rx_enabled regex_config)
    then if existsb (fun pc => raises_other re_compile (pc_pattern pc)) configured
         then None
         else Some (omap (compiled_entry re_compile) configured)
    else Some [].
Proof.
  intros rc configured. unfold _compile_regex_patterns. fold rc. fold configured.
  destruct (default true (rx_enabled rc)); simpl; [|done].
  by rewrite compile_loop.
Qed.

(** What a completed [__init__] leaves in the instance. *)
Lemma init_Some cfg self :
  init re_compile cfg = Some self →
  config self = cfg
  ∧ keywords self = _extract_keywords cfg
  ∧ _compile_regex_patterns re_compile cfg = Some (regex_patterns self).
Proof.
  unfold init. destruct (_compile_regex_patterns re_compile cfg); [|done].
  by intros [= <-].
Qed.

Lemma init_completed_patterns cfg self :
  let regex_config := default no_regex_config (cfg_regex_patterns cfg) in
  init re_compile cfg = Some self →
  regex_patterns self
  = if default true (rx_enabled regex_config)
    then omap (compiled_entry re_compile) (default [] (rx_patterns regex_config))
    else [].
Proof.
  intros rc (_ & _ & Hc)%init_Some. rewrite compile_regex_patterns_spec in Hc.
  fold rc in Hc. destruct (default true (rx_enabled rc)); [|by injection Hc].
  destruct (existsb _ _); [done|]. by injection Hc.
Qed.

(** C9.  With pattern matching enabled, a configured pattern on which
    [re.compile] raises an exception other than [re.error] is not skipped:
    the exception leaves [_compile_regex_patterns] and [__init__], and no
    filter is built, whatever the other patterns are. *)
Theorem uncaught_compile_error_aborts cfg (pc : PatternConfig) :
  let regex_config := default no_regex_config (cfg_regex_patterns cfg) in
  default true (rx_enabled regex_config) = true →
  pc ∈ default [] (rx_patterns regex_config) →
  re_compile (pc_pattern pc) = OtherError →
  _compile_regex_patterns re_compile cfg = None ∧ init re_compile cfg = None.
Proof.
  intros rc Hen Hin Hraise.
  assert (Hc : _compile_regex_patterns re_compile cfg = None).
  { rewrite compile_regex_patterns_spec. fold rc. rewrite Hen.
    assert (He : existsb (fun pc => raises_other re_compile (pc_pattern pc))
                   (default [] (rx_patterns rc)) = true).
    { apply existsb_exists. exists pc. split; [by apply list_elem_of_In|].
      unfold raises_other. by rewrite Hraise. }
    by rewrite He. }
  split; [done|]. unfold init. by rewrite Hc.
Qed.

(** The patterns reported for a text are those whose regex finds it. *)
Lemma match_regex_patterns_filter self text :
  _match_regex_patterns re_search self text
  = map (fun p => {| mp_description := description p; mp_pattern := original p |})
      (List.filter (fun p => re_search (pattern p) text) (regex_patterns self)).
Proof. unfold _match_regex_patterns. by rewrite fold_left_append_filter. Qed.

End PatternMatcher.

(** C9 at a pattern with a repeat count that overflows, between two
    patterns that compile. *)
Lemma uncaught_compile_error_aborts_witness :
  _compile_regex_patterns Sample.compile (Sample.patterns_config "a{4294967296}")
  = None
  ∧ init Sample.compile (Sample.patterns_config "a{4294967296}") = None.
Proof.
  apply (uncaught_compile_error_aborts Sample.compile
           (Sample.patterns_config "a{4294967296}")
           {| pc_pattern := "a{4294967296}"; pc_description := Some "middle" |}).
  - reflexivity.
  - right. by left.
  - reflexivity.
Defined.

Example compile_skips_re_error :
  init Sample.compile (Sample.patterns_config "(") = Some Sample.patterns_filter.
Proof. reflexivity. Qed.

(** ** The scorer *)

Section Scorer.

Context {Regex : Type}.
Implicit Types (self : AdvisoryFilter Regex) (m : Matches) (a : Advisory).

Lemma sum_lengths_concat (d : list (string * list string)) :
  foldr Z.add 0 (map (fun kv => Z.of_nat (length (snd kv))) d)
  = Z.of_nat (length (concat (map snd d))).
Proof.
  induction d as [|[k v] d IH]; simpl; [done|].
  rewrite IH, length_app. lia.
Qed.

(** C4.  With ranking enabled the score is the number of matched keywords
    over all entries of [matched_keywords] times [exact_match], plus the
    number of matched categories times [category_match], plus the number
    of matched patterns times [regex_match], plus one severity bonus:
    [severity_critical], [severity_high] or [severity_medium] for these
    three lower-cased severities and 0 for any other.  With the default
    weights, a critical advisory with one matched keyword, one matched
    category and no pattern scores 30. *)
Theorem relevance_score_formula self m a :
  let ranking_config := default no_ranking_config (cfg_ranking (config self)) in
  let weights := default no_weights (rk_weights ranking_config) in
  let severity := Text.lower (default "" (adv_severity a)) in
  let total_keywords := Z.of_nat (length (concat (map snd (matched_keywords m)))) in
  let categories := Z.of_nat (length (matched_categories m)) in
  let patterns := Z.of_nat (length (matched_patterns m)) in
  default true (rk_enabled ranking_config) = true →
  (∃ bonus,
      _calculate_relevance_score self m a
      = total_keywords * default 10 (exact_match weights)
        + categories * default 5 (category_match weights)
        + patterns * default 7 (regex_match weights)
        + bonus
      ∧ (severity = "critical" → bonus = default 15 (severity_critical weights))
      ∧ (severity = "high" → bonus = default 10 (severity_high weights))
      ∧ (severity = "medium" → bonus = default 5 (severity_medium weights))
      ∧ (severity ∉ ["critical"; "high"; "medium"] → bonus = 0))
  ∧ (rk_weights ranking_config = None → severity = "critical" →
     total_keywords = 1 → categories = 1 → patterns = 0 →
     _calculate_relevance_score self m a = 10 + 5 + 15).
Proof.
  intros rc w severity total ncat npat Hen.
  assert (Hscore : _calculate_relevance_score self m a
            = total * default 10 (exact_match w)
              + ncat * default 5 (category_match w)
              + npat * default 7 (regex_match w)
              + (if bool_decide (severity = "critical")
                 then default 15 (severity_critical w)
                 else if bool_decide (severity = "high")
                      then default 10 (severity_high w)
                      else if bool_decide (severity = "medium")
                           then default 5 (severity_medium w) else 0)).
  { unfold _calculate_relevance_score. fold rc. rewrite Hen. simpl.
    fold w severity. rewrite sum_lengths_concat. fold total ncat npat.
    repeat case_bool_decide; lia. }
  split.
  - eexists. split; [exact Hscore|].
    repeat split; intros Hs; repeat case_bool_decide; try done;
      try (rewrite Hs in *; done).
    all: exfalso; apply Hs; set_solver.
  - intros Hw Hs Ht Hc Hp. rewrite Hscore, Ht, Hc, Hp.
    rewrite bool_decide_eq_true_2 by done.
    subst w. rewrite Hw. reflexivity.
Qed.

End Scorer.

(** C4 at the first advisory of the scenario, with its match result. *)
Lemma relevance_score_formula_witness :
  _calculate_relevance_score Sample.injection_filter
    {| matched_keywords := [("injection", ["sql injection"])];
       matched_categories := ["injection"];
       matched_patterns := [] |}
    Sample.cve_0001
  = 30.
Proof.
  destruct (relevance_score_formula Sample.injection_filter
              {| matched_keywords := [("injection", ["sql injection"])];
                 matched_categories := ["injection"];
                 matched_patterns := [] |}
              Sample.cve_0001 eq_refl) as [_ H].
  apply H; reflexivity.
Defined.

(** ** The filter pipeline *)

Section Pipeline.

Context {Regex : Type}.
Variable re_search : Regex → string → bool.

Implicit Types (self : AdvisoryFilter Regex) (a : Advisory) (r : ScoredResult).
Implicit Types (batch : list Advisory) (text : string).

Lemma truthy_dict_set {V : Type} (d : list (string * V)) (k : string) (v : V) :
  Py.truthy (Py.dict_set d k v) = true.
Proof. destruct d as [|[k' v'] d]; simpl; [done|]. by case_bool_decide. Qed.

Lemma truthy_nonempty {A : Type} (l : list A) : Py.truthy l = true ↔ l ≠ [].
Proof. by destruct l. Qed.

(** The category loop appends the display name of every category with a
    matched keyword, and leaves [matched_keywords] empty only if there is
    no such category. *)
Lemma match_category_loop self text (cats : list (string * CategoryData))
    (state : list (string * list string) * list string) :
  let final := fold_left (match_category self text) cats state in
  final.2
  = state.2
    ++ (display_name <$> filter (fun item => _match_keywords self text item.1 ≠ []) cats)
  ∧ (Py.truthy final.1 = true →
     Py.truthy state.1 = true
     ∨ ∃ item, item ∈ cats ∧ _match_keywords self text item.1 ≠ []).
Proof.
  revert state. induction cats as [|[cid data] cats IH]; intros [mk mc]; simpl.
  - rewrite app_nil_r. by split; [|left].
  - destruct (IH (match_category self text (mk, mc) (cid, data))) as [IHc IHk].
    rewrite filter_cons. simpl in *.
    destruct (_match_keywords self text cid) as [|kw kws] eqn:Hm; simpl in *.
    + split; [done|].
      intros [?|(item & ? & ?)]%IHk; [by left|right].
      exists item. split; [by right|done].
    + split.
      * rewrite IHc. simpl. by rewrite <- app_assoc.
      * intros _. right. exists (cid, data). split; [by left|]. simpl. by rewrite Hm.
Qed.

(** What a result of [filter_advisory] is made of. *)
Lemma filter_advisory_Some self a r :
  filter_advisory re_search self a = Some r →
  let text := searchable_text a in
  let cats := default [] (cfg_categories (config self)) in
  _check_severity self a = true
  ∧ advisory r = a
  ∧ matched_categories (matches r)
    = (display_name <$> filter (fun item => _match_keywords self text item.1 ≠ []) cats)
  ∧ matched_patterns (matches r) = _match_regex_patterns re_search self text
  ∧ relevance_score r = _calculate_relevance_score self (matches r) a
  ∧ ((∃ item, item ∈ cats ∧ _match_keywords self text item.1 ≠ [])
     ∨ _match_regex_patterns re_search self text ≠ []).
Proof.
  unfold filter_advisory.
  destruct (_check_severity self a); simpl; [|done].
  pose proof (match_category_loop self (searchable_text a)
                (default [] (cfg_categories (config self))) ([], [])) as [Hc Hk].
  fold (match_categories self (searchable_text a)) in Hc, Hk.
  destruct (match_categories self (searchable_text a)) as [mk mc]. simpl in Hc, Hk.
  destruct (Py.truthy mk) eqn:Hmk; simpl.
  - intros [= <-]. simpl. repeat split; [done|].
    left. destruct Hk as [?|?]; done.
  - destruct (Py.truthy (_match_regex_patterns re_search self (searchable_text a)))
      eqn:Hmp; simpl; [|done].
    intros [= <-]. simpl. repeat split; [done|].
    right. by apply truthy_nonempty.
Qed.

Lemma collect_omap self batch :
  collect re_search self batch = omap (filter_advisory re_search self) batch.
Proof. unfold collect. by rewrite fold_left_append_omap. Qed.

(** The output is a prefix of the sorted list of collected results. *)
Lemma filter_advisories_take self batch :
  ∃ k : nat,
    filter_advisories re_search self batch
    = take k (Py.sort relevance_score true
                (omap (filter_advisory re_search self) batch)).
Proof. unfold filter_advisories. rewrite collect_omap. apply slice_to_take. Qed.

Lemma elem_of_filter_advisories self batch r :
  r ∈ filter_advisories re_search self batch →
  ∃ a, a ∈ batch ∧ filter_advisory re_search self a = Some r.
Proof.
  destruct (filter_advisories_take self batch) as [k ->].
  intros Hr. apply (sublist_subseteq _ _ (sublist_take _ k)) in Hr.
  rewrite sort_perm in Hr.
  by apply list_elem_of_omap in Hr.
Qed.

(** In each class of equal scores the output keeps the collected results
    in their order, up to where the output stops. *)
Lemma filter_advisories_stable self batch (s : Z) :
  filter (fun r => relevance_score r = s) (filter_advisories re_search self batch)
  `prefix_of`
  filter (fun r => relevance_score r = s)
    (omap (filter_advisory re_search self) batch).
Proof.
  destruct (filter_advisories_take self batch) as [k ->].
  rewrite <- (filter_sort relevance_score s true (omap _ batch)).
  apply filter_take_prefix.
Qed.

(** C5.  A result of the pipeline belongs to an advisory of the batch
    that the severity gate admits and whose searchable text is matched by
    a keyword of a configured category or by a compiled pattern. *)
Theorem results_passed_gate_and_matched self batch r :
  r ∈ filter_advisories re_search self batch →
  let text := searchable_text (advisory r) in
  advisory r ∈ batch
  ∧ _check_severity self (advisory r) = true
  ∧ ((∃ cid data kw,
         (cid, data) ∈ default [] (cfg_categories (config self))
         ∧ kw ∈ default ∅ (keywords self !! cid)
         ∧ keyword_matches kw (Text.lower text) = true)
     ∨ (∃ p, p ∈ regex_patterns self ∧ re_search (pattern p) text = true)).
Proof.
  intros (a & Ha & Hr)%elem_of_filter_advisories.
  apply filter_advisory_Some in Hr as (Hgate & <- & _ & _ & _ & Hmatch).
  simpl. split; [done|]. split; [done|].
  destruct Hmatch as [([cid data] & Hitem & Hkw)|Hpat]; [left|right].
  - simpl in Hkw.
    destruct (_match_keywords self (searchable_text (advisory r)) cid)
      as [|kw kws] eqn:Hm; [done|].
    assert (Hin : kw ∈ _match_keywords self (searchable_text (advisory r)) cid).
    { rewrite Hm. by left. }
    apply elem_of_match_keywords in Hin as [? ?]. by exists cid, data, kw.
  - rewrite match_regex_patterns_filter in Hpat.
    destruct (List.filter _ (regex_patterns self)) as [|p ps] eqn:Hf; [done|].
    assert (Hin : In p (List.filter
              (fun p => re_search (pattern p) (searchable_text (advisory r)))
              (regex_patterns self))).
    { rewrite Hf. by left. }
    apply filter_In in Hin as [Hin ?]. exists p. by rewrite list_elem_of_In.
Qed.

(** C6.  Two results of equal score stand in the output in the order in
    which their advisories stand in the batch. *)
Theorem equal_scores_keep_batch_order self batch r1 r2 :
  before r1 r2 (filter_advisories re_search self batch) →
  relevance_score r1 = relevance_score r2 →
  ∃ a1 a2,
    before a1 a2 batch
    ∧ filter_advisory re_search self a1 = Some r1 ∧ advisory r1 = a1
    ∧ filter_advisory re_search self a2 = Some r2 ∧ advisory r2 = a2.
Proof.
  intros Hb Hs.
  apply (before_into_filter (fun r => relevance_score r = relevance_score r2))
    in Hb; [|done..].
  eapply before_prefix in Hb; [|apply filter_advisories_stable].
  apply before_filter, before_omap in Hb as (a1 & a2 & Hb & H1 & H2).
  exists a1, a2. repeat split; try done.
  - by apply filter_advisory_Some in H1 as (_ & ? & _).
  - by apply filter_advisory_Some in H2 as (_ & ? & _).
Qed.

(** X17.  For a result cap that is not negative, the output has at most
    [max_results] results; it is empty for a cap of 0; and when the cap is
    not below the number of collected results, the output is all of them,
    sorted. *)
Theorem filter_advisories_capped self batch :
  let max_results :=
    default 20 (rk_max_results (default no_ranking_config (cfg_ranking (config self)))) in
  let collected := omap (filter_advisory re_search self) batch in
  let output := filter_advisories re_search self batch in
  0 ≤ max_results →
  Z.of_nat (length output) ≤ max_results
  ∧ (max_results = 0 → output = [])
  ∧ (Z.of_nat (length collected) ≤ max_results →
     output = Py.sort relevance_score true collected ∧ output ≡ₚ collected).
Proof.
  intros max_results collected output Hmax. subst output.
  unfold filter_advisories. rewrite collect_omap. fold collected max_results.
  split; [by apply slice_to_length|]. split.
  - intros ->. apply slice_to_zero.
  - intros Hlen. rewrite slice_to_all.
    + split; [done|apply sort_perm].
    + by rewrite (Permutation_length (sort_perm relevance_score true collected)).
Qed.

(** C8, as the code has it.  The matched categories are the display
    names of the configured categories that have a matched keyword, one
    entry per such category, in the configuration's order; they are
    pairwise distinct when the display names of the configured categories
    are. *)
Theorem matched_categories_in_config_order self a r :
  filter_advisory re_search self a = Some r →
  let cats := default [] (cfg_categories (config self)) in
  matched_categories (matches r)
  = (display_name <$>
       filter (fun item => _match_keywords self (searchable_text a) item.1 ≠ []) cats)
  ∧ matched_categories (matches r) `sublist_of` (display_name <$> cats)
  ∧ (NoDup (display_name <$> cats) → NoDup (matched_categories (matches r))).
Proof.
  intros (_ & _ & Hc & _)%filter_advisory_Some cats.
  assert (Hsub : matched_categories (matches r) `sublist_of` (display_name <$> cats)).
  { rewrite Hc. apply fmap_sublist, sublist_filter. }
  split; [done|]. split; [done|].
  intros Hnd. by eapply sublist_NoDup.
Qed.

(** C10.  A result of the pipeline carries an advisory of the batch, as
    it stands there, and is what [filter_advisory] returns for it. *)
Theorem result_carries_input_advisory self batch r :
  r ∈ filter_advisories re_search self batch →
  advisory r ∈ batch ∧ filter_advisory re_search self (advisory r) = Some r.
Proof.
  intros (a & Ha & Hr)%elem_of_filter_advisories.
  pose proof (filter_advisory_Some _ _ _ Hr) as (_ & <- & _). done.
Qed.

End Pipeline.

(** C5 at the scenario: its one result passed the gate. *)
Lemma results_passed_gate_and_matched_witness :
  Sample.cve_0001 ∈ Sample.batch_of_two
  ∧ _check_severity Sample.injection_filter Sample.cve_0001 = true.
Proof.
  assert (Hin : Sample.cve_0001_result
                ∈ filter_advisories Sample.search Sample.injection_filter
                    Sample.batch_of_two).
  { rewrite scenario_batch. by left. }
  destruct (results_passed_gate_and_matched Sample.search Sample.injection_filter
              Sample.batch_of_two Sample.cve_0001_result Hin) as (H1 & H2 & _).
  split; [exact H1|exact H2].
Defined.

Example xss_batch_output :
  filter_advisories Sample.search Sample.xss_filter Sample.xss_batch
  = [Sample.xss_result "xss one"; Sample.xss_result "xss two"].
Proof. vm_compute. reflexivity. Qed.

(** C6 at two advisories that both score 15. *)
Lemma equal_scores_keep_batch_order_witness :
  ∃ a1 a2,
    before a1 a2 Sample.xss_batch
    ∧ filter_advisory Sample.search Sample.xss_filter a1
      = Some (Sample.xss_result "xss one")
    ∧ advisory (Sample.xss_result "xss one") = a1
    ∧ filter_advisory Sample.search Sample.xss_filter a2
      = Some (Sample.xss_result "xss two")
    ∧ advisory (Sample.xss_result "xss two") = a2.
Proof.
  apply (equal_scores_keep_batch_order Sample.search Sample.xss_filter Sample.xss_batch).
  - exists [], [], []. vm_compute. reflexivity.
  - reflexivity.
Defined.

Example xss_batch_collected :
  omap (filter_advisory Sample.search Sample.negative_cap_filter) Sample.xss_batch
  = [Sample.xss_result "xss one"; Sample.xss_result "xss two"].
Proof. vm_compute. reflexivity. Qed.

(** C7.  With [max_results] configured as -1 and two collected results,
    the slice drops the last result only: the output has one result, more
    than max(0, -1) = 0. *)
Theorem negative_cap_keeps_results :
  rk_max_results
    (default no_ranking_config (cfg_ranking (config Sample.negative_cap_filter)))
  = Some (-1)
  ∧ filter_advisories Sample.search Sample.negative_cap_filter Sample.xss_batch
    = [Sample.xss_result "xss one"]
  ∧ ¬ (Z.of_nat (length (filter_advisories Sample.search Sample.negative_cap_filter
                           Sample.xss_batch))
       ≤ Z.max 0 (-1)).
Proof.
  assert (Hout : filter_advisories Sample.search Sample.negative_cap_filter
                   Sample.xss_batch
                 = [Sample.xss_result "xss one"]) by (vm_compute; reflexivity).
  split; [reflexivity|]. split; [exact Hout|].
  rewrite Hout. simpl. lia.
Qed.

(** X17 at a cap of one and two collected results: the second is cut. *)
Lemma filter_advisories_capped_witness :
  Z.of_nat (length (filter_advisories Sample.search Sample.cap_one_filter
                      Sample.xss_batch)) ≤ 1
  ∧ length (omap (filter_advisory Sample.search Sample.cap_one_filter)
              Sample.xss_batch) = 2%nat.
Proof.
  assert (Hcap : 0 ≤ 1) by lia.
  split; [|vm_compute; reflexivity].
  exact (proj1 (filter_advisories_capped Sample.search Sample.cap_one_filter
                  Sample.xss_batch Hcap)).
Defined.

(** C8 at three categories with distinct display names, of which the
    first matches with two keywords and the third with one: the first is
    listed once, and before the third, although the text names the third
    one's keyword first. *)
Lemma matched_categories_in_config_order_witness :
  ∃ r, filter_advisory Sample.search Sample.stack_filter Sample.stack_advisory
       = Some r
       ∧ matched_categories (matches r) = ["Web"; "Logging"]
       ∧ matched_categories (matches r) `sublist_of` ["Web"; "db"; "Logging"]
       ∧ NoDup (matched_categories (matches r)).
Proof.
  destruct (filter_advisory Sample.search Sample.stack_filter Sample.stack_advisory)
    as [r|] eqn:Hr; [|vm_compute in Hr; discriminate].
  exists r. split; [done|].
  destruct (matched_categories_in_config_order Sample.search Sample.stack_filter
              Sample.stack_advisory r Hr) as (H1 & H2 & H3).
  split; [|split; [exact H2|]].
  - rewrite H1. vm_compute. reflexivity.
  - apply H3. vm_compute. apply (bool_decide_unpack _). vm_compute. exact I.
Defined.

(** C8 as the specification words it does not hold: two categories that
    share the display name "Web" and both match put it twice in
    [matched_categories]. *)
Lemma shared_display_name_counterexample :
  ∃ r, filter_advisory Sample.search Sample.shared_name_filter
         (Sample.described "xss and csrf") = Some r
       ∧ matched_categories (matches r) = ["Web"; "Web"]
       ∧ ¬ NoDup (matched_categories (matches r)).
Proof.
  eexists. split; [vm_compute; reflexivity|]. split; [reflexivity|].
  simpl. intros [Hn _]%NoDup_cons. apply Hn. by left.
Qed.

(** C10 at the scenario. *)
Lemma result_carries_input_advisory_witness :
  advisory Sample.cve_0001_result ∈ Sample.batch_of_two
  ∧ filter_advisory Sample.search Sample.injection_filter
      (advisory Sample.cve_0001_result)
    = Some Sample.cve_0001_result.
Proof.
  apply (result_carries_input_advisory Sample.search Sample.injection_filter
           Sample.batch_of_two).
  rewrite scenario_batch. by left.
Defined.

(** ** Normalized keywords *)

Lemma is_space_lower_char (c : ascii) :
  Text.is_space (Text.lower_char c) = Text.is_space c.
Proof. by destruct c as [[] [] [] [] [] [] [] []]. Qed.

Lemma is_word_lower_char (c : ascii) :
  Text.is_word (Text.lower_char c) = Text.is_word c.
Proof. by destruct c as [[] [] [] [] [] [] [] []]. Qed.

Lemma lstrip_lower (s : string) : Text.lower (Text.lstrip s) = Text.lstrip (Text.lower s).
Proof.
  induction s as [|c s IH]; simpl; [done|].
  rewrite is_space_lower_char. by destruct (Text.is_space c).
Qed.

Lemma rstrip_lower (s : string) : Text.lower (Text.rstrip s) = Text.rstrip (Text.lower s).
Proof.
  induction s as [|c s IH]; simpl; [done|].
  rewrite <- IH, is_space_lower_char.
  destruct (Text.rstrip s); simpl; [|done]. by destruct (Text.is_space c).
Qed.

Lemma strip_lower (s : string) : Text.lower (Text.strip s) = Text.strip (Text.lower s).
Proof. unfold Text.strip. by rewrite rstrip_lower, lstrip_lower. Qed.

Lemma rstrip_cons (c : ascii) (s : string) :
  Text.rstrip (String c s)
  = match Text.rstrip s with
    | EmptyString => if Text.is_space c then EmptyString else String c EmptyString
    | r => String c r
    end.
Proof. reflexivity. Qed.

Lemma rstrip_idemp (s : string) : Text.rstrip (Text.rstrip s) = Text.rstrip s.
Proof.
  induction s as [|c s IH]; [done|]. rewrite rstrip_cons.
  destruct (Text.rstrip s) as [|d r] eqn:Hr.
  - destruct (Text.is_space c) eqn:Hc; [done|]. rewrite rstrip_cons. simpl. by rewrite Hc.
  - rewrite rstrip_cons, IH. done.
Qed.

(** A string that does not begin with white space. *)
Lemma lstrip_fixed (s : string) :
  from_option Text.is_space false (Text.head s) = false → Text.lstrip s = s.
Proof. destruct s as [|c s]; simpl; [done|]. by intros ->. Qed.

Lemma lstrip_head (s : string) :
  from_option Text.is_space false (Text.head (Text.lstrip s)) = false.
Proof.
  induction s as [|c s IH]; simpl; [done|].
  destruct (Text.is_space c) eqn:Hc; [done|]. simpl. done.
Qed.

Lemma rstrip_head (s : string) :
  from_option Text.is_space false (Text.head s) = false →
  from_option Text.is_space false (Text.head (Text.rstrip s)) = false.
Proof.
  destruct s as [|c s]; simpl; [done|]. intros Hc.
  destruct (Text.rstrip s); [by rewrite Hc|done].
Qed.

Lemma strip_idemp (s : string) : Text.strip (Text.strip s) = Text.strip s.
Proof.
  unfold Text.strip.
  rewrite (lstrip_fixed (Text.rstrip _)) by apply rstrip_head, lstrip_head.
  apply rstrip_idemp.
Qed.

Lemma rstrip_last (s : string) (c : ascii) :
  last_of None (Text.rstrip s) = Some c → Text.is_space c = false.
Proof.
  induction s as [|d s IH]; [done|]. rewrite rstrip_cons.
  destruct (Text.rstrip s) as [|e r] eqn:Hr.
  - destruct (Text.is_space d) eqn:Hd; simpl; [done|]. by intros [= <-].
  - exact IH.
Qed.

Lemma normalize_lower (raw : string) : Text.lower (normalize raw) = normalize raw.
Proof. apply lower_idemp. Qed.

Lemma normalize_strip (raw : string) : Text.strip (normalize raw) = normalize raw.
Proof. unfold normalize. by rewrite <- strip_lower, strip_idemp. Qed.

Lemma word_tail_last (s : string) (c d : ascii) :
  Text.is_word c = true → Text.word_tail s = true →
  last_of (Some c) s = Some d →
  Text.is_word d = true ∨ d = "010"%char.
Proof.
  revert c. induction s as [|e s IH]; intros c Hc; simpl.
  - intros _ [= <-]. by left.
  - destruct s as [|f s].
    + intros [He|He%bool_decide_eq_true]%orb_true_iff [= <-]; [by left|by right].
    + intros [He Ht]%andb_true_iff. by apply IH.
Qed.

(** A stripped keyword that passes the word test begins and ends with a
    word character. *)
Lemma word_keyword_ends (kw : string) :
  Text.strip kw = kw → Text.re_match_word kw = true →
  Text.word_at (Text.head kw) = true ∧ Text.word_at (last_of None kw) = true.
Proof.
  intros Hs Hw. destruct kw as [|c kw]; [done|].
  simpl in Hw. apply andb_true_iff in Hw as [Hc Ht].
  split; [done|]. cbn [last_of].
  destruct (last_of (Some c) kw) as [d|] eqn:Hl.
  - simpl. destruct (word_tail_last kw c d Hc Ht Hl) as [?| ->]; [done|].
    assert (Hsp : Text.is_space "010" = false); [|done].
    apply (rstrip_last (Text.lstrip (String c kw))).
    fold (Text.strip (String c kw)). rewrite Hs. cbn [last_of]. done.
  - exfalso. clear -Hl. revert c Hl. induction kw; intros c; simpl; [done|]. apply IHkw.
Qed.

(** ** The keyword index *)

Section KeywordIndex.

Context {Regex : Type}.
Variable re_compile : string → Compile Regex.

Implicit Types (cfg : Config) (cid kw text : string) (data : CategoryData).

Lemma keyword_set_loop (raws : list string) (acc : gset string) :
  fold_left
    (fun category_keywords keyword =>
       let normalized := Text.lower (Text.strip keyword) in
       category_keywords ∪ {[ normalized ]}) raws acc
  = acc ∪ list_to_set (normalize <$> raws).
Proof.
  revert acc. induction raws as [|raw raws IH]; intros acc; simpl.
  - by rewrite (right_id_L ∅ (∪)).
  - rewrite IH. by rewrite (assoc_L (∪)).
Qed.

(** The index after the loop over the categories: an id that is not
    configured keeps its entry, and a configured id holds the normalized
    keywords of its category. *)
Lemma extract_loop (cats : list (string * CategoryData))
    (acc : gmap string (gset string)) cid :
  let final :=
    fold_left
      (fun keywords '(category_id, category_data) =>
         let category_keywords :=
           fold_left
             (fun category_keywords keyword =>
                let normalized := Text.lower (Text.strip keyword) in
                category_keywords ∪ {[ normalized ]})
             (default [] (cat_keywords category_data)) ∅ in
         <[ category_id := category_keywords ]> keywords)
      cats acc in
  (cid ∉ cats.*1 → final !! cid = acc !! cid)
  ∧ (NoDup cats.*1 → ∀ data, (cid, data) ∈ cats →
     final !! cid
     = Some (list_to_set (normalize <$> default [] (cat_keywords data))))
  ∧ (∀ S, final !! cid = Some S →
     acc !! cid = Some S
     ∨ ∃ data, (cid, data) ∈ cats
               ∧ S = list_to_set (normalize <$> default [] (cat_keywords data)))
  ∧ dom final = dom acc ∪ list_to_set cats.*1.
Proof.
  intros final. subst final.
  match goal with |- context [fold_left ?f cats acc] => set (step := f) end.
  revert acc. induction cats as [|[c d] cats IH]; intros acc.
  - simpl. split; [done|]. split; [by intros _ data ?%elem_of_nil|].
    split; [by left|]. by rewrite (right_id_L ∅ (∪)).
  - cbn [fold_left].
    assert (Hstep : step acc (c, d)
                    = <[c:=list_to_set (normalize <$> default [] (cat_keywords d))]> acc).
    { unfold step. simpl. by rewrite keyword_set_loop, (left_id_L ∅ (∪)). }
    rewrite Hstep.
    destruct (IH (<[c:=list_to_set (normalize <$> default [] (cat_keywords d))]> acc))
      as (IH1 & IH2 & IH3 & IH4).
    split; [|split; [|split]].
    + intros [Hne Hni]%not_elem_of_cons. rewrite IH1 by done.
      by rewrite lookup_insert_ne.
    + intros [Hc Hnd]%NoDup_cons data [[= -> ->]|Hin]%elem_of_cons.
      * rewrite IH1 by done. by rewrite lookup_insert_eq.
      * by apply IH2.
    + intros S [HS|(data & Hin & ->)]%IH3.
      * destruct (decide (c = cid)) as [->|Hne].
        -- rewrite lookup_insert_eq in HS. injection HS as <-.
           right. exists d. split; [by left|done].
        -- rewrite lookup_insert_ne in HS by done. by left.
      * right. exists data. split; [by right|done].
    + rewrite IH4, dom_insert_L. simpl.
      rewrite (assoc_L (∪)), (comm_L (∪) (dom acc)). done.
Qed.

Lemma extracted_keyword_normalized cfg cid kw :
  kw ∈ default ∅ (_extract_keywords cfg !! cid) → ∃ raw, kw = normalize raw.
Proof.
  destruct (extract_loop (default [] (cfg_categories cfg)) ∅ cid) as (_ & _ & H3 & _).
  destruct (_extract_keywords cfg !! cid) as [S|] eqn:HS; simpl;
    [|by intros ?%elem_of_empty].
  destruct (H3 S HS) as [?|(data & _ & ->)]; [done|].
  rewrite elem_of_list_to_set, list_elem_of_fmap.
  intros (raw & -> & _). by exists raw.
Qed.

(** X1.  After initialization, with the category ids pairwise distinct, as
    the keys of a mapping are, the index holds for a configured category
    exactly the normalized forms of its keywords; an id that is not
    configured has no entry, and no keyword is reported for it. *)
Theorem keyword_index_lookup cfg (self : AdvisoryFilter Regex) cid :
  let cats := default [] (cfg_categories cfg) in
  init re_compile cfg = Some self →
  NoDup cats.*1 →
  (∀ data, (cid, data) ∈ cats →
     ∃ S, keywords self !! cid = Some S
          ∧ ∀ kw, kw ∈ S ↔ ∃ raw, raw ∈ default [] (cat_keywords data)
                                   ∧ kw = Text.lower (Text.strip raw))
  ∧ (cid ∉ cats.*1 →
     keywords self !! cid = None
     ∧ ∀ text, _match_keywords self text cid = []).
Proof.
  intros cats (_ & Hkeys & _)%init_Some Hnd. rewrite Hkeys.
  destruct (extract_loop cats ∅ cid) as (H1 & H2 & _ & _).
  fold cats in H1, H2. split.
  - intros data Hin. eexists. split; [by apply H2|].
    intros kw. rewrite elem_of_list_to_set, list_elem_of_fmap.
    split; intros (raw & ? & ?); exists raw; done.
  - intros Hni.
    assert (Hk : _extract_keywords cfg !! cid = None).
    { etrans; [exact (H1 Hni)|apply lookup_empty]. }
    split; [done|]. intros text. rewrite match_keywords_filter, Hkeys, Hk. simpl.
    by rewrite elements_empty.
Qed.

(** X2.  Every keyword of the index after initialization is in normal
    form: lower-casing it or stripping it again changes nothing. *)
Theorem stored_keywords_normal cfg (self : AdvisoryFilter Regex) cid kw :
  init re_compile cfg = Some self →
  kw ∈ default ∅ (keywords self !! cid) →
  Text.lower kw = kw ∧ Text.strip kw = kw.
Proof.
  intros (_ & -> & _)%init_Some [raw ->]%extracted_keyword_normalized.
  split; [apply normalize_lower|apply normalize_strip].
Qed.

End KeywordIndex.

(** ** The keyword policy *)

Lemma all_word_last (s : string) (o : option ascii) :
  Text.word_at o = true → all_word s = true → Text.word_at (last_of o s) = true.
Proof.
  revert o. induction s as [|c s IH]; intros o Ho; simpl; [done|].
  intros [Hc Hs]%andb_true_iff. by apply IH.
Qed.

Lemma word_tail_all_word (s : string) (c : ascii) :
  Text.word_at (last_of (Some c) s) = true → Text.word_tail s = all_word s.
Proof.
  revert c. induction s as [|d s IH]; intros c; [done|].
  destruct s as [|e s].
  - simpl. intros ->. done.
  - intros Hl.
    change (Text.word_tail (String d (String e s)))
      with (Text.is_word d && Text.word_tail (String e s)).
    change (all_word (String d (String e s)))
      with (Text.is_word d && all_word (String e s)).
    by rewrite (IH d).
Qed.

(** On a stripped keyword the test [^[\w]+$] says that the keyword is not
    empty and has word characters only: a newline cannot end it. *)
Lemma word_test_stripped (kw : string) :
  Text.strip kw = kw → Text.re_match_word kw = only_word_chars kw.
Proof.
  intros Hs. destruct kw as [|c kw]; [done|]. cbn [Text.re_match_word only_word_chars all_word].
  destruct (Text.is_word c) eqn:Hc; [|done]. simpl.
  destruct (Text.word_tail kw) eqn:Ht.
  - assert (Hw : Text.re_match_word (String c kw) = true) by (simpl; by rewrite Hc, Ht).
    destruct (word_keyword_ends _ Hs Hw) as [_ Hl]. cbn [last_of] in Hl.
    by rewrite <- (word_tail_all_word kw c Hl).
  - destruct (all_word kw) eqn:Ha; [|done].
    assert (Hl : Text.word_at (last_of (Some c) kw) = true) by (by apply all_word_last).
    pose proof (word_tail_all_word kw c Hl). congruence.
Qed.

Section KeywordPolicy.

Context {Regex : Type}.

Implicit Types (self : AdvisoryFilter Regex) (cid kw text : string).

(** A keyword in normal form is searched as a whole token when it passes
    the word test and as a substring otherwise. *)
Lemma normal_keyword_policy self cid kw text :
  kw ∈ default ∅ (keywords self !! cid) →
  Text.lower kw = kw → Text.strip kw = kw →
  kw ∈ _match_keywords self text cid
  ↔ if Text.re_match_word kw
    then whole_token_of kw (Text.lower text)
    else substring_of kw (Text.lower text).
Proof.
  intros Hkw Hl Hs. rewrite elem_of_match_keywords. unfold keyword_matches.
  destruct (Text.re_match_word kw) eqn:Hw.
  - destruct (word_keyword_ends _ Hs Hw) as [Hf Hla].
    rewrite (re_search_bounded_spec _ Hl Hf Hla) by apply lower_idemp.
    tauto.
  - rewrite str_in_spec. tauto.
Qed.

(** C2, as the code has it, for a keyword and a text of ASCII characters.
    A keyword in normal form (lower-case and stripped, as every keyword is
    after initialization) that consists of word characters only, as "log4j"
    does, is searched with word boundaries: it is reported exactly when the
    lower-cased text has it as a whole token, with no word character
    directly before or after it.  In "uses log4j2-core" the digit 2 follows
    "log4j", which is no whole token there.  A non-empty keyword in normal
    form that has another character is reported exactly when the
    lower-cased text contains it as a substring. *)
Theorem match_keywords_policy self text cid kw :
  kw ∈ default ∅ (keywords self !! cid) →
  Text.lower kw = kw → Text.strip kw = kw →
  Text.is_ascii kw = true → Text.is_ascii text = true →
  (only_word_chars kw = true →
     (kw ∈ _match_keywords self text cid
      ↔ whole_token_of kw (Text.lower text)))
  ∧ (kw ≠ "" → only_word_chars kw = false →
     (kw ∈ _match_keywords self text cid
      ↔ substring_of kw (Text.lower text)))
  ∧ only_word_chars "log4j" = true
  ∧ ¬ whole_token_of "log4j" (Text.lower "uses log4j2-core").
Proof.
  intros Hkw Hl Hs _ _.
  pose proof (normal_keyword_policy self cid kw text Hkw Hl Hs) as Hp.
  rewrite (word_test_stripped kw Hs) in Hp.
  split; [by intros Hw; rewrite Hw in Hp|].
  split; [by intros _ Hw; rewrite Hw in Hp|].
  split; [done|].
  intros Ht. apply (re_search_bounded_spec "log4j" eq_refl eq_refl eq_refl) in Ht;
    [discriminate|reflexivity].
Qed.

End KeywordPolicy.

Section ConfiguredKeywords.

Context {Regex : Type}.
Variable re_compile : string → Compile Regex.

Implicit Types (self : AdvisoryFilter Regex) (cfg : Config) (cid kw text : string).

Lemma stored_keyword_policy cfg self cid kw text :
  init re_compile cfg = Some self →
  kw ∈ default ∅ (keywords self !! cid) →
  kw ∈ _match_keywords self text cid
  ↔ if Text.re_match_word kw
    then whole_token_of kw (Text.lower text)
    else substring_of kw (Text.lower text).
Proof.
  intros Hinit Hkw.
  destruct (init_Some _ _ _ Hinit) as (_ & Hkeys & _).
  assert (Hex : kw ∈ default ∅ (_extract_keywords cfg !! cid)) by (by rewrite <- Hkeys).
  destruct (extracted_keyword_normalized _ _ _ Hex) as [raw ->].
  apply normal_keyword_policy; [done|apply normalize_lower|apply normalize_strip].
Qed.

(** X3.  After initialization, for a keyword of the index and a text of
    ASCII characters: a keyword that passes the word test is reported
    exactly when the lower-cased text has it as a whole token, and any
    other one exactly when the lower-cased text contains it. *)
Theorem configured_keyword_policy cfg self cid kw text :
  init re_compile cfg = Some self →
  kw ∈ default ∅ (keywords self !! cid) →
  Text.is_ascii kw = true → Text.is_ascii text = true →
  (Text.re_match_word kw = true →
     (kw ∈ _match_keywords self text cid
      ↔ whole_token_of kw (Text.lower text)))
  ∧ (Text.re_match_word kw = false →
     (kw ∈ _match_keywords self text cid
      ↔ substring_of kw (Text.lower text))).
Proof.
  intros Hinit Hkw _ _.
  pose proof (stored_keyword_policy cfg self cid kw text Hinit Hkw) as H.
  split; intros Hw; by rewrite Hw in H.
Qed.

End ConfiguredKeywords.

(** ** More on the matchers and the pipeline *)

Section DictFacts.

Context {V : Type}.
Implicit Types (d : list (string * V)) (k : string) (v : V).

Lemma dict_set_fresh d k v : k ∉ d.*1 → Py.dict_set d k v = d ++ [(k, v)].
Proof.
  induction d as [|[k' v'] d IH]; [done|]. cbn [Py.dict_set].
  rewrite fmap_cons. cbn [fst]. intros [Hne Hni]%not_elem_of_cons.
  rewrite bool_decide_eq_false_2 by done. by rewrite IH.
Qed.

Lemma dict_set_keys d k v :
  (Py.dict_set d k v).*1 = if decide (k ∈ d.*1) then d.*1 else d.*1 ++ [k].
Proof.
  induction d as [|[k' v'] d IH]; [done|]. cbn [Py.dict_set].
  case_bool_decide as Hk; rewrite !fmap_cons; cbn [fst].
  - subst k'. rewrite decide_True by (by left). done.
  - rewrite IH. destruct (decide (k ∈ d.*1)) as [Hin|Hni].
    + rewrite decide_True by (by right). done.
    + rewrite decide_False; [done|]. by intros [->|?]%elem_of_cons.
Qed.

Lemma dict_set_values (P : V → Prop) d k v :
  P v → Forall (fun kv => P kv.2) d → Forall (fun kv => P kv.2) (Py.dict_set d k v).
Proof.
  intros Hv. induction 1 as [|[k' v'] d Hkv Hd IH]; simpl; [by repeat constructor|].
  case_bool_decide; constructor; done.
Qed.

End DictFacts.

Section MatchResult.

Context {Regex : Type}.
Variable re_search : Regex → string → bool.

Implicit Types (self : AdvisoryFilter Regex) (a : Advisory) (r : ScoredResult).
Implicit Types (text : string) (cats : list (string * CategoryData)).

(** A category with a matched keyword makes [matched_keywords] non-empty. *)
Lemma match_category_loop_truthy self text cats
    (state : list (string * list string) * list string) :
  Py.truthy state.1 = true
  ∨ (∃ item, item ∈ cats ∧ _match_keywords self text item.1 ≠ []) →
  Py.truthy (fold_left (match_category self text) cats state).1 = true.
Proof.
  revert state. induction cats as [|[cid data] cats IH]; intros [mk mc]; simpl.
  - intros [?|(item & ?%elem_of_nil & _)]; done.
  - intros Hor. apply IH.
    destruct (_match_keywords self text cid) as [|kw kws] eqn:Hm; simpl.
    + destruct Hor as [?|(item & [->|?]%elem_of_cons & Hne)]; [by left| |right].
      * simpl in Hne. by rewrite Hm in Hne.
      * by exists item.
    + left. apply truthy_dict_set.
Qed.

(** The keys and values of [matched_keywords] along the category loop. *)
Lemma match_category_loop_entries self text cats
    (state : list (string * list string) * list string) :
  let final := fold_left (match_category self text) cats state in
  let hits := filter (fun item => _match_keywords self text item.1 ≠ []) cats in
  (NoDup state.1.*1 → NoDup final.1.*1)
  ∧ (∀ k, k ∈ final.1.*1 ↔ k ∈ state.1.*1 ∨ k ∈ display_name <$> hits)
  ∧ (Forall (fun kv => kv.2 ≠ []) state.1 → Forall (fun kv => kv.2 ≠ []) final.1)
  ∧ (NoDup (state.1.*1 ++ (display_name <$> cats)) →
     final.1
     = state.1
       ++ ((fun item => (display_name item, _match_keywords self text item.1)) <$> hits)).
Proof.
  revert state. induction cats as [|[cid data] cats IH]; intros [mk mc]; cbv zeta.
  - simpl. split; [done|]. split; [|split; [done|intros _; by rewrite app_nil_r]].
    intros k. split; [by left|]. by intros [?|?%elem_of_nil].
  - cbn [fold_left]. rewrite filter_cons. cbn [fst snd].
    destruct (_match_keywords self text cid) as [|kw kws] eqn:Hm.
    + assert (Hstep : match_category self text (mk, mc) (cid, data) = (mk, mc)).
      { unfold match_category. by rewrite Hm. }
      rewrite Hstep. destruct (IH (mk, mc)) as (IH1 & IH2 & IH3 & IH4). clear IH.
      rewrite decide_False by (by intros H; apply H). cbn [fst snd] in *.
      split; [done|]. split; [done|]. split; [done|].
      intros Hnd. apply IH4. rewrite fmap_cons in Hnd.
      rewrite <- Permutation_middle in Hnd. by apply NoDup_cons in Hnd as [_ ?].
    + set (name := default cid (cat_name data)).
      assert (Hstep : match_category self text (mk, mc) (cid, data)
                      = (Py.dict_set mk name (kw :: kws), mc ++ [name])).
      { unfold match_category. by rewrite Hm. }
      rewrite Hstep.
      destruct (IH (Py.dict_set mk name (kw :: kws), mc ++ [name]))
        as (IH1 & IH2 & IH3 & IH4). clear IH.
      rewrite decide_True by done. cbn [fst snd] in *. rewrite !fmap_cons.
      change (display_name (cid, data)) with name.
      split; [|split; [|split]].
      * intros Hnd. apply IH1. rewrite dict_set_keys.
        case_decide; [done|]. apply NoDup_app. split; [done|].
        split; [|apply NoDup_singleton].
        by intros x Hx ->%list_elem_of_singleton.
      * intros k. rewrite IH2, dict_set_keys, elem_of_cons.
        case_decide as Hin; [|rewrite elem_of_app, list_elem_of_singleton];
          split; intros H; try tauto.
        destruct H as [?|[->|?]]; tauto.
      * intros Hv. apply IH3, (dict_set_values (fun v => v ≠ [])); done.
      * intros Hnd. rewrite <- Permutation_middle in Hnd.
        apply NoDup_cons in Hnd as [Hni Hnd'].
        assert (Hfresh : name ∉ mk.*1).
        { intros Hin. apply Hni. apply elem_of_app. by left. }
        rewrite IH4.
        -- cbn [fst]. rewrite Hm, dict_set_fresh by done. by rewrite <- app_assoc.
        -- rewrite dict_set_keys, decide_False by done.
           rewrite <- app_assoc. cbn [app]. rewrite <- Permutation_middle.
           by apply NoDup_cons.
Qed.

(** A result of [filter_advisory], written out. *)
Lemma filter_advisory_Some_full self a r :
  filter_advisory re_search self a = Some r →
  let text := searchable_text a in
  let m := {| matched_keywords := (match_categories self text).1;
              matched_categories := (match_categories self text).2;
              matched_patterns := _match_regex_patterns re_search self text |} in
  r = {| advisory := a; matches := m;
         relevance_score := _calculate_relevance_score self m a |}
  ∧ (matched_keywords m ≠ [] ∨ matched_patterns m ≠ []).
Proof.
  unfold filter_advisory.
  destruct (_check_severity self a); simpl; [|done].
  destruct (match_categories self (searchable_text a)) as [mk mc]. simpl.
  destruct mk as [|kv mk]; simpl.
  - destruct (_match_regex_patterns re_search self (searchable_text a)) eqn:Hp;
      simpl; [done|].
    intros [= <-]. split; [done|by right].
  - intros [= <-]. split; [done|by left].
Qed.

(** X4.  [filter_advisory] returns a result exactly for an advisory that
    the gate admits and whose searchable text is matched by a keyword of a
    configured category or by a compiled pattern. *)
Theorem filter_advisory_result_iff self a :
  let text := searchable_text a in
  is_Some (filter_advisory re_search self a) ↔
    _check_severity self a = true
    ∧ ((∃ cid data kw,
           (cid, data) ∈ default [] (cfg_categories (config self))
           ∧ kw ∈ default ∅ (keywords self !! cid)
           ∧ keyword_matches kw (Text.lower text) = true)
       ∨ (∃ p, p ∈ regex_patterns self ∧ re_search (pattern p) text = true)).
Proof.
  intros text. split.
  - intros [r Hr]. apply filter_advisory_Some in Hr as (Hg & _ & _ & _ & _ & Hm).
    split; [done|]. destruct Hm as [([cid data] & Hin & Hne)|Hp]; [left|right].
    + simpl in Hne. fold text in Hne.
      destruct (_match_keywords self text cid) as [|kw kws] eqn:Hk; [done|].
      assert (Hkw : kw ∈ _match_keywords self text cid) by (rewrite Hk; by left).
      apply elem_of_match_keywords in Hkw as [? ?]. by exists cid, data, kw.
    + fold text in Hp. rewrite match_regex_patterns_filter in Hp.
      destruct (List.filter _ (regex_patterns self)) as [|p ps] eqn:Hf; [done|].
      assert (Hin : In p (List.filter (fun p => re_search (pattern p) text)
                            (regex_patterns self))) by (rewrite Hf; by left).
      apply filter_In in Hin as [Hin ?]. exists p. by rewrite list_elem_of_In.
  - intros [Hg Hm]. unfold filter_advisory. rewrite Hg. simpl. fold text.
    destruct (match_categories self text) as [mk mc] eqn:Hmc.
    destruct Hm as [(cid & data & kw & Hin & Hkw & Hk)|(p & Hin & Hp)].
    + assert (Ht : Py.truthy mk = true).
      { change mk with (mk, mc).1. rewrite <- Hmc.
        apply match_category_loop_truthy. right. exists (cid, data).
        split; [done|]. simpl. intros Hnil.
        assert (Hel : kw ∈ _match_keywords self text cid)
          by (by apply elem_of_match_keywords).
        rewrite Hnil in Hel. by apply elem_of_nil in Hel. }
      rewrite Ht. simpl. done.
    + assert (Ht : Py.truthy (_match_regex_patterns re_search self text) = true).
      { rewrite match_regex_patterns_filter.
        assert (Hel : In p (List.filter (fun p => re_search (pattern p) text)
                              (regex_patterns self))).
        { apply filter_In. by rewrite <- list_elem_of_In. }
        by destruct (List.filter _ (regex_patterns self)). }
      rewrite Ht, andb_false_r. done.
Qed.

(** X5.  In a result, [matched_keywords] has pairwise distinct keys, which
    are the names listed in [matched_categories], and no empty keyword
    list.  When the display names of the configured categories are pairwise
    distinct, it has one entry per matching category, in the configured
    order: the display name with the keywords matched for that category. *)
Theorem matched_keywords_entries self a r :
  filter_advisory re_search self a = Some r →
  let text := searchable_text a in
  let cats := default [] (cfg_categories (config self)) in
  let mk := matched_keywords (matches r) in
  NoDup mk.*1
  ∧ (∀ name, name ∈ mk.*1 ↔ name ∈ matched_categories (matches r))
  ∧ Forall (fun kv => kv.2 ≠ []) mk
  ∧ (NoDup (display_name <$> cats) →
     mk = ((fun item => (display_name item, _match_keywords self text item.1))
             <$> filter (fun item => _match_keywords self text item.1 ≠ []) cats)
     ∧ mk.*1 = matched_categories (matches r)).
Proof.
  intros Hr text cats mk.
  pose proof (filter_advisory_Some _ _ _ _ Hr) as (_ & _ & Hc & _).
  apply filter_advisory_Some_full in Hr as [-> _]. subst mk text.
  cbn [matches matched_keywords matched_categories] in *.
  destruct (match_category_loop_entries self (searchable_text a) cats ([], []))
    as (H1 & H2 & H3 & H4).
  fold cats in Hc. unfold match_categories in *. fold cats in Hc |- *.
  cbn [fst snd fmap list_fmap app] in H1, H2, H3, H4.
  split; [apply H1; constructor|]. split.
  - intros name. rewrite H2, Hc.
    split; [by intros [?%elem_of_nil|?]|by right].
  - split; [apply H3; constructor|]. intros Hnd. specialize (H4 Hnd).
    split; [done|]. rewrite Hc, H4, <- list_fmap_compose. done.
Qed.

End MatchResult.

Lemma length_omap_le {A B : Type} (f : A → option B) (l : list A) :
  (length (omap f l) ≤ length l)%nat.
Proof.
  induction l as [|x l IH]; csimpl; [done|].
  destruct (f x); csimpl; lia.
Qed.

Lemma sorted_of_equal_keys {A : Type} (key : A → Z) (k : Z) (l : list A) :
  Forall (fun x => key x = k) l → StronglySorted (fun a b => key b ≤ key a) l.
Proof.
  induction 1 as [|x l Hx Hl IH]; constructor; [done|].
  eapply Forall_impl; [exact Hl|]. simpl. lia.
Qed.

Section PipelineOrder.

Context {Regex : Type}.
Variable re_search : Regex → string → bool.

Implicit Types (self : AdvisoryFilter Regex) (a : Advisory) (r : ScoredResult).
Implicit Types (batch : list Advisory).

(** X6.  With ranking enabled and no weights configured, a result scores
    at least 7, and at least 15 when a keyword matched. *)
Theorem default_score_at_least_seven self a r :
  let ranking_config := default no_ranking_config (cfg_ranking (config self)) in
  filter_advisory re_search self a = Some r →
  default true (rk_enabled ranking_config) = true →
  rk_weights ranking_config = None →
  7 ≤ relevance_score r
  ∧ (matched_keywords (matches r) ≠ [] → 15 ≤ relevance_score r).
Proof.
  intros rc Hr Hen Hw.
  apply filter_advisory_Some_full in Hr as [-> Hne].
  cbn [relevance_score matches matched_keywords matched_patterns] in *.
  destruct (match_category_loop_entries self (searchable_text a)
              (default [] (cfg_categories (config self))) ([], []))
    as (_ & Hkeys & Hvals & _).
  fold (match_categories self (searchable_text a)) in Hkeys, Hvals.
  pose proof (match_category_loop self (searchable_text a)
                (default [] (cfg_categories (config self))) ([], [])) as [Hc _].
  fold (match_categories self (searchable_text a)) in Hc.
  cbn [fst snd app] in Hkeys, Hvals, Hc.
  assert (Hvals' := Hvals (Forall_nil_2 _)). clear Hvals. rename Hvals' into Hvals.
  unfold _calculate_relevance_score. fold rc. rewrite Hen, Hw.
  cbn [negb default no_weights exact_match category_match regex_match
       severity_critical severity_high severity_medium
       matched_keywords matched_categories matched_patterns].
  rewrite sum_lengths_concat.
  set (mk := (match_categories self (searchable_text a)).1) in *.
  set (mc := (match_categories self (searchable_text a)).2) in *.
  set (mp := _match_regex_patterns re_search self (searchable_text a)) in *.
  assert (Hmk : mk ≠ [] →
            (1 ≤ length (concat (map snd mk)))%nat ∧ (1 ≤ length mc)%nat).
  { destruct mk as [|[k v] mk']; [done|]. intros _. split.
    - apply Forall_cons in Hvals as [Hv _].
      simpl in *. rewrite length_app. destruct v; [done|]. simpl. lia.
    - assert (Hin : k ∈ mc).
      { rewrite Hc. destruct (proj1 (Hkeys k)) as [Hn|Hn];
          [rewrite fmap_cons; by left| |done].
        by apply elem_of_nil in Hn. }
      destruct mc; [by apply elem_of_nil in Hin|]. simpl. lia. }
  assert (Hmp : mp ≠ [] → (1 ≤ length mp)%nat).
  { destruct mp; [done|]. simpl. lia. }
  split.
  - destruct Hne as [H|H]; [apply Hmk in H|apply Hmp in H];
      repeat case_bool_decide; lia.
  - intros H. apply Hmk in H. repeat case_bool_decide; lia.
Qed.

(** X7.  The output is in descending order of relevance score. *)
Theorem output_sorted_descending self batch :
  StronglySorted (fun r1 r2 => relevance_score r2 ≤ relevance_score r1)
    (filter_advisories re_search self batch).
Proof.
  destruct (filter_advisories_take re_search self batch) as [k ->].
  pose proof (sort_descending relevance_score
                (omap (filter_advisory re_search self) batch)) as Hs.
  rewrite <- (take_drop k (Py.sort _ _ _)) in Hs.
  by apply StronglySorted_app_1_l in Hs.
Qed.

(** X8.  The cut keeps the best: the collected results are the output
    together with a rest, and no result of the rest scores above a result
    of the output. *)
Theorem truncation_drops_lowest self batch :
  ∃ rest,
    filter_advisories re_search self batch ++ rest
    ≡ₚ omap (filter_advisory re_search self) batch
    ∧ ∀ r r', r ∈ filter_advisories re_search self batch → r' ∈ rest →
              relevance_score r' ≤ relevance_score r.
Proof.
  destruct (filter_advisories_take re_search self batch) as [k ->].
  set (sorted := Py.sort relevance_score true
                   (omap (filter_advisory re_search self) batch)).
  exists (drop k sorted). split.
  - rewrite take_drop. apply sort_perm.
  - intros r r' Hr Hr'.
    pose proof (sort_descending relevance_score
                  (omap (filter_advisory re_search self) batch)) as Hs.
    fold sorted in Hs. rewrite <- (take_drop k sorted) in Hs.
    by apply (StronglySorted_app_1_elem_of _ _ _ r r') in Hs.
Qed.

(** X9.  With ranking disabled every result scores 1, the sort changes
    nothing, and the output is the collected results in batch order, cut at
    [max_results]. *)
Theorem ranking_disabled_keeps_batch_order self batch :
  let ranking_config := default no_ranking_config (cfg_ranking (config self)) in
  default true (rk_enabled ranking_config) = false →
  filter_advisories re_search self batch
  = Py.slice_to (omap (filter_advisory re_search self) batch)
      (default 20 (rk_max_results ranking_config))
  ∧ Forall (fun r => relevance_score r = 1) (filter_advisories re_search self batch).
Proof.
  intros rc Hen.
  assert (Hone : Forall (fun r => relevance_score r = 1)
                   (omap (filter_advisory re_search self) batch)).
  { apply Forall_forall. intros r (a & _ & Hr)%list_elem_of_omap.
    apply filter_advisory_Some in Hr as (_ & _ & _ & _ & -> & _).
    unfold _calculate_relevance_score. fold rc. by rewrite Hen. }
  assert (Hsort : Py.sort relevance_score true
                    (omap (filter_advisory re_search self) batch)
                  = omap (filter_advisory re_search self) batch).
  { symmetry. apply sort_reverse_unique; [|done].
    by apply (sorted_of_equal_keys _ 1). }
  assert (Heq : filter_advisories re_search self batch
                = Py.slice_to (omap (filter_advisory re_search self) batch)
                    (default 20 (rk_max_results rc))).
  { unfold filter_advisories. by rewrite collect_omap, Hsort. }
  split; [done|]. rewrite Heq.
  destruct (slice_to_take (omap (filter_advisory re_search self) batch)
              (default 20 (rk_max_results rc))) as [k ->].
  by apply Forall_take.
Qed.

(** X10.  An advisory without a CVSS score counts as scoring 0.0: with the
    gate enabled and a floor above zero it is rejected, whatever its
    severity and its text. *)
Theorem missing_cvss_rejected self a :
  let severity_config := default no_severity_config (cfg_severity (config self)) in
  default true (sev_enabled severity_config) = true →
  adv_cvssScore a = None →
  (0 < default 0 (sev_min_cvss severity_config))%Q →
  _check_severity self a = false
  ∧ filter_advisory re_search self a = None
  ∧ ∀ batch r, r ∈ filter_advisories re_search self batch → advisory r ≠ a.
Proof.
  intros sc Hen Hcv Hmin.
  assert (Hg : _check_severity self a = false).
  { unfold _check_severity. fold sc. rewrite Hen, Hcv. simpl.
    by rewrite (proj2 (Qltb_lt _ _) Hmin). }
  split; [done|].
  assert (Hf : filter_advisory re_search self a = None).
  { unfold filter_advisory. by rewrite Hg. }
  split; [done|].
  intros batch r (a' & _ & Hr)%elem_of_filter_advisories Ha.
  pose proof (filter_advisory_Some _ _ _ _ Hr) as (_ & Ha' & _).
  congruence.
Qed.

End PipelineOrder.

Section Engine.

Context {Regex : Type}.
Variable re_compile : string → Compile Regex.
Variable re_search : Regex → string → bool.

Implicit Types (cfg : Config) (self : AdvisoryFilter Regex) (text : string).
Implicit Types (mp : MatchedPattern).

(** X11.  After initialization, a pattern is reported for a text exactly
    when pattern matching is enabled and it stands for a configured pattern
    that compiles and whose regex finds the text; it carries that pattern's
    source string and its description, the empty string when none is
    configured. *)
Theorem reported_pattern_iff cfg self text mp :
  let regex_config := default no_regex_config (cfg_regex_patterns cfg) in
  init re_compile cfg = Some self →
  mp ∈ _match_regex_patterns re_search self text ↔
    default true (rx_enabled regex_config) = true
    ∧ ∃ pc r, pc ∈ default [] (rx_patterns regex_config)
              ∧ re_compile (pc_pattern pc) = Compiled r
              ∧ re_search r text = true
              ∧ mp = {| mp_description := default "" (pc_description pc);
                        mp_pattern := pc_pattern pc |}.
Proof.
  intros rc Hinit. rewrite match_regex_patterns_filter.
  rewrite (init_completed_patterns re_compile cfg self Hinit). fold rc.
  rewrite list_elem_of_fmap. split.
  - intros (p & -> & Hp). apply list_elem_of_In, filter_In in Hp as [Hp Hs].
    apply list_elem_of_In in Hp.
    destruct (default true (rx_enabled rc)); [|by apply elem_of_nil in Hp].
    split; [done|]. apply list_elem_of_omap in Hp as (pc & Hpc & Hc).
    unfold compiled_entry, compile_pattern in Hc.
    destruct (re_compile (pc_pattern pc)) as [r| |] eqn:Hr; [|done..].
    injection Hc as <-. by exists pc, r.
  - intros (-> & pc & r & Hpc & Hr & Hs & ->).
    exists {| pattern := r; description := default "" (pc_description pc);
              original := pc_pattern pc |}.
    split; [done|]. apply list_elem_of_In, filter_In. split; [|done].
    apply list_elem_of_In, list_elem_of_omap. exists pc. split; [done|].
    unfold compiled_entry, compile_pattern. by rewrite Hr.
Qed.

(** X12.  The counts that the script prints: the number of filtered
    advisories is the length of the results and never above the number of
    advisories read; with pairwise distinct category ids, [categories_used]
    is the number of configured categories; [regex_patterns_used] is never
    above the number of configured patterns and is 0 when pattern matching
    is disabled. *)
Theorem main_output_counts cfg (advisories : list Advisory) (out : FilteredBatch) :
  let cats := default [] (cfg_categories cfg) in
  let regex_config := default no_regex_config (cfg_regex_patterns cfg) in
  main_output re_compile re_search cfg advisories = Some out →
  filtered_advisories out = Z.of_nat (length (results out))
  ∧ 0 ≤ filtered_advisories out ≤ total_advisories out
  ∧ (NoDup cats.*1 → categories_used out = Z.of_nat (length cats))
  ∧ regex_patterns_used out
    ≤ Z.of_nat (length (default [] (rx_patterns regex_config)))
  ∧ (default true (rx_enabled regex_config) = false → regex_patterns_used out = 0).
Proof.
  intros cats rc. unfold main_output.
  destruct (init re_compile cfg) as [self|] eqn:Hinit; [|done].
  intros [= <-].
  pose proof (init_completed_patterns re_compile cfg self Hinit) as Hpat.
  fold rc in Hpat.
  destruct (init_Some _ _ _ Hinit) as (_ & Hkeys & _).
  cbn [filtered_advisories total_advisories results categories_used
       regex_patterns_used].
  split; [done|]. split; [|split; [|split]].
  - split; [lia|].
    destruct (filter_advisories_take re_search self advisories) as [k ->].
    rewrite length_take, (Permutation_length (sort_perm _ _ _)).
    pose proof (length_omap_le (filter_advisory re_search self) advisories). lia.
  - intros Hnd. f_equal. rewrite Hkeys.
    destruct (extract_loop cats ∅ "") as (_ & _ & _ & Hdom).
    unfold _extract_keywords. fold cats.
    rewrite <- (size_dom (D:=gset string)).
    match goal with |- size (dom ?m) = _ =>
      replace (dom m) with (dom (∅ : gmap string (gset string))
                            ∪ (list_to_set cats.*1 : gset string))
        by (symmetry; exact Hdom)
    end.
    rewrite dom_empty_L, (left_id_L ∅ (∪)).
    rewrite size_list_to_set by done. apply length_fmap.
  - rewrite Hpat. destruct (default true (rx_enabled rc)); simpl; [|lia].
    pose proof (length_omap_le (compiled_entry re_compile)
                  (default [] (rx_patterns rc))). lia.
  - intros Hen. by rewrite Hpat, Hen.
Qed.

End Engine.

(** ** The searchable text *)

Lemma append_empty_r (s : string) : s +:+ "" = s.
Proof. induction s as [|c s IH]; [done|]. by rewrite append_cons, IH. Qed.

Lemma append_assoc (s t u : string) : (s +:+ t) +:+ u = s +:+ t +:+ u.
Proof. induction s as [|c s IH]; [done|]. by rewrite !append_cons, IH. Qed.

Lemma lower_append (s t : string) :
  Text.lower (s +:+ t) = Text.lower s +:+ Text.lower t.
Proof.
  induction s as [|c s IH]; [done|].
  rewrite append_cons. cbn [Text.lower]. by rewrite append_cons, IH.
Qed.

Lemma last_of_append (o : option ascii) (s t : string) :
  last_of o (s +:+ t) = last_of (last_of o s) t.
Proof.
  revert o. induction s as [|c s IH]; intros o; [done|].
  rewrite append_cons. cbn [last_of]. apply IH.
Qed.

Lemma head_append (s t : string) :
  Text.head (s +:+ t) = match s with EmptyString => Text.head t | _ => Text.head s end.
Proof. by destruct s. Qed.

Lemma word_at_last_lower (o : option ascii) (s : string) :
  Text.word_at (last_of (Text.lower_char <$> o) (Text.lower s))
  = Text.word_at (last_of o s).
Proof.
  revert o. induction s as [|c s IH]; intros o; simpl.
  - destruct o; simpl; [apply is_word_lower_char|done].
  - apply (IH (Some c)).
Qed.

Lemma word_at_head_lower (s : string) :
  Text.word_at (Text.head (Text.lower s)) = Text.word_at (Text.head s).
Proof. destruct s; simpl; [done|apply is_word_lower_char]. Qed.

Lemma whole_token_substring (kw t : string) : whole_token_of kw t → substring_of kw t.
Proof. intros (pre & post & -> & _). by exists pre, post. Qed.

Lemma substring_trans (x f t : string) :
  substring_of x f → substring_of f t → substring_of x t.
Proof.
  intros (p1 & p2 & ->) (pre & post & ->).
  exists (pre +:+ p1), (p2 +:+ post). by rewrite !append_assoc.
Qed.

Lemma substring_lower (f t : string) :
  substring_of f t → substring_of (Text.lower f) (Text.lower t).
Proof.
  intros (pre & post & ->). exists (Text.lower pre), (Text.lower post).
  by rewrite !lower_append.
Qed.

(** A whole token of a part that is itself set off in the text is a whole
    token of the text. *)
Lemma whole_token_trans (x f t : string) :
  whole_token_of x f → whole_token_of f t → whole_token_of x t.
Proof.
  intros (p1 & p2 & -> & Hl1 & Hr1) (pre & post & -> & Hl & Hr).
  exists (pre +:+ p1), (p2 +:+ post). split; [by rewrite !append_assoc|]. split.
  - rewrite last_of_append. destruct p1 as [|c p1]; [done|].
    by rewrite (last_of_nonempty _ None).
  - rewrite head_append. by destruct p2.
Qed.

Lemma whole_token_lower (f t : string) :
  whole_token_of f t → whole_token_of (Text.lower f) (Text.lower t).
Proof.
  intros (pre & post & -> & Hl & Hr). exists (Text.lower pre), (Text.lower post).
  split; [by rewrite !lower_append|]. split.
  - by rewrite <- (word_at_last_lower None pre) in Hl.
  - by rewrite word_at_head_lower.
Qed.

Lemma join_cons_cons (sep p q : string) (rest : list string) :
  Text.join sep (p :: q :: rest) = p +:+ sep +:+ Text.join sep (q :: rest).
Proof. reflexivity. Qed.

(** Each part joined with single spaces is set off in the result. *)
Lemma whole_token_join (f : string) (parts : list string) :
  f ∈ parts → whole_token_of f (Text.join " " parts).
Proof.
  induction parts as [|p parts IH]; [by intros ?%elem_of_nil|].
  destruct parts as [|q rest].
  - intros ->%list_elem_of_singleton. exists "", "". by rewrite append_empty_r.
  - rewrite join_cons_cons. intros [->|Hin]%elem_of_cons.
    + by exists "", (" " +:+ Text.join " " (q :: rest)).
    + destruct (IH Hin) as (pre & post & -> & Hl & Hr).
      exists (p +:+ " " +:+ pre), post. split; [by rewrite !append_assoc|].
      split; [|done]. rewrite !last_of_append.
      destruct pre as [|c pre]; [done|]. by rewrite (last_of_nonempty _ None).
Qed.

Lemma whole_token_searchable_field (a : Advisory) (f : string) :
  f ∈ searchable_fields a → whole_token_of f (searchable_text a).
Proof.
  unfold searchable_fields, searchable_text. rewrite elem_of_app.
  intros [Hin|Hin].
  - apply whole_token_join. rewrite !elem_of_cons in Hin. rewrite !elem_of_cons.
    destruct Hin as [?|[?|[?|[?|Hn]]]]; [tauto..|by apply elem_of_nil in Hn].
  - eapply whole_token_trans; [by apply whole_token_join|].
    apply whole_token_join. do 4 right. by left.
Qed.

Section SearchableFields.

Context {Regex : Type}.
Variable re_compile : string → Compile Regex.

(** X13.  After initialization, for a keyword and an advisory whose
    searchable fields are all ASCII: the keyword is reported when one field
    (the id, the description, the summary, the title or one reference) has
    it in its lower-cased form, as a whole token for a keyword that passes
    the word test, anywhere for another one. *)
Theorem keyword_in_field_reported (cfg : Config) (self : AdvisoryFilter Regex)
    (cid kw : string) (a : Advisory) (f : string) :
  init re_compile cfg = Some self →
  kw ∈ default ∅ (keywords self !! cid) →
  Text.is_ascii kw = true →
  Forall (fun field => Text.is_ascii field = true) (searchable_fields a) →
  f ∈ searchable_fields a →
  (if Text.re_match_word kw
   then whole_token_of kw (Text.lower f)
   else substring_of kw (Text.lower f)) →
  kw ∈ _match_keywords self (searchable_text a) cid.
Proof.
  intros Hinit Hkw _ _ Hf Hocc.
  apply (stored_keyword_policy re_compile cfg); [done..|].
  pose proof (whole_token_lower _ _ (whole_token_searchable_field a f Hf)) as Hfield.
  destruct (Text.re_match_word kw).
  - by eapply whole_token_trans.
  - eapply substring_trans; [done|]. by apply whole_token_substring.
Qed.

End SearchableFields.

(** ** The notification generator *)

Lemma length_str_append (s t : string) :
  String.length (s +:+ t) = (String.length s + String.length t)%nat.
Proof. induction s as [|c s IH]; [done|]. rewrite append_cons. simpl. by rewrite IH. Qed.

Lemma str_take_split (n : nat) (s : string) :
  ∃ rest, s = Notification.str_take n s +:+ rest
          ∧ String.length (Notification.str_take n s) = Nat.min n (String.length s).
Proof.
  revert s. induction n as [|n IH]; intros s.
  - exists s. by destruct s.
  - destruct s as [|c s]; [by exists ""|].
    destruct (IH s) as (rest & Hs & Hl). exists rest. simpl.
    split; [by rewrite append_cons, <- Hs|by rewrite Hl].
Qed.

(** X14.  For the two limits the code uses, 300 and 150: a description
    within the limit is left as it is, a longer one is cut to exactly the
    limit, the three dots included, and what stands before the dots is the
    beginning of the description. *)
Theorem truncated_description_fits (max_length : nat) (description : string) :
  max_length ∈ [Notification.MAX_DESCRIPTION_LENGTH;
                Notification.TEAMS_MAX_DESCRIPTION_LENGTH] →
  let shown := Notification.truncate max_length description in
  String.length shown = Nat.min (String.length description) max_length
  ∧ ((String.length description ≤ max_length)%nat → shown = description)
  ∧ ((max_length < String.length description)%nat →
     ∃ kept dropped,
       description = kept +:+ dropped
       ∧ String.length kept = (max_length - 3)%nat
       ∧ shown = kept +:+ "...").
Proof.
  intros Hmax shown. subst shown. unfold Notification.truncate.
  assert (H3 : (3 ≤ max_length)%nat).
  { apply elem_of_cons in Hmax as [->|Hmax];
      [|apply list_elem_of_singleton in Hmax as ->];
      unfold Notification.MAX_DESCRIPTION_LENGTH,
             Notification.TEAMS_MAX_DESCRIPTION_LENGTH; lia. }
  destruct (str_take_split (max_length - 3) description) as (rest & Hd & Hl).
  destruct (max_length <? String.length description)%nat eqn:Hlt.
  - apply Nat.ltb_lt in Hlt. simpl. rewrite length_str_append, Hl. simpl.
    split; [lia|]. split; [lia|]. intros _.
    exists (Notification.str_take (max_length - 3) description), rest.
    split; [done|]. split; [lia|done].
  - apply Nat.ltb_ge in Hlt. split; [lia|]. split; [done|lia].
Qed.

Lemma emoji_lookup (k : string) :
  default "⚪" (Notification.SEVERITY_EMOJIS !! k)
  = if bool_decide (k = "critical") then "🔴"
    else if bool_decide (k = "high") then "🟠"
    else if bool_decide (k = "medium") then "🟡"
    else if bool_decide (k = "low") then "🟢"
    else "⚪".
Proof.
  unfold Notification.SEVERITY_EMOJIS.
  rewrite !list_to_map_cons, list_to_map_nil, !lookup_insert, lookup_empty.
  repeat case_decide; repeat case_bool_decide; simplify_eq; done.
Qed.

(** X15.  The emoji depends on the severity only up to letter case: the
    four levels get their own emoji, and every other severity, the empty
    one included, gets the white circle. *)
Theorem severity_emoji_by_level (severity : string) :
  Notification._get_severity_emoji severity
  = if bool_decide (Text.lower severity = "critical") then "🔴"
    else if bool_decide (Text.lower severity = "high") then "🟠"
    else if bool_decide (Text.lower severity = "medium") then "🟡"
    else if bool_decide (Text.lower severity = "low") then "🟢"
    else "⚪".
Proof.
  unfold Notification._get_severity_emoji. rewrite emoji_lookup.
  destruct severity as [|c s]; [done|]. done.
Qed.

Lemma severity_counts_loop (results : list ScoredResult) (acc : gmap string Z)
    (level : string) :
  let final :=
    fold_left
      (fun severity_counts result =>
         let severity :=
           Text.lower (default "UNKNOWN" (adv_severity (advisory result))) in
         <[ severity := default 0 (severity_counts !! severity) + 1 ]> severity_counts)
      results acc in
  let having :=
    filter (fun r => Text.lower (default "UNKNOWN" (adv_severity (advisory r))) = level)
      results in
  default 0 (final !! level) = default 0 (acc !! level) + Z.of_nat (length having)
  ∧ (is_Some (final !! level) ↔ is_Some (acc !! level) ∨ having ≠ []).
Proof.
  intros final having. subst final having.
  match goal with |- context [fold_left ?f results acc] => set (step := f) end.
  revert acc. induction results as [|r results IH]; intros acc.
  - simpl. split; [lia|]. split; [by left|]. by intros [?|?].
  - cbn [fold_left].
    set (sev := Text.lower (default "UNKNOWN" (adv_severity (advisory r)))).
    assert (Hstep : step acc r = <[sev:=default 0 (acc !! sev) + 1]> acc) by done.
    rewrite Hstep.
    destruct (IH (<[sev:=default 0 (acc !! sev) + 1]> acc)) as [IH1 IH2].
    rewrite IH1, IH2, filter_cons. fold sev.
    destruct (decide (sev = level)) as [->|Hne].
    + rewrite lookup_insert_eq. simpl. split; [lia|].
      split; [intros _; by right|intros _; by left].
    + rewrite lookup_insert_ne by done. done.
Qed.

(** X16.  After the counting loop of the markdown report, the count kept
    for a lower-cased severity is the number of results that have it, a
    missing severity counting as "unknown"; a severity without a result has
    no entry. *)
Theorem severity_counts_count (results : list ScoredResult) (level : string) :
  let having :=
    filter (fun r => Text.lower (default "UNKNOWN" (adv_severity (advisory r))) = level)
      results in
  default 0 (Notification.severity_counts results !! level) = Z.of_nat (length having)
  ∧ (is_Some (Notification.severity_counts results !! level) ↔ having ≠ []).
Proof.
  intros having.
  destruct (severity_counts_loop results ∅ level) as [H1 H2].
  split.
  - etrans; [exact H1|]. by rewrite lookup_empty.
  - etrans; [exact H2|]. rewrite lookup_empty. split; [|by right].
    by intros [[? ?]|?].
Qed.

(** ** The added properties at work *)

(** The sample filters that [Sample.instance] builds are what [__init__]
    returns for their configurations. *)
Lemma init_instance (cfg : Config) :
  cfg_regex_patterns cfg = None →
  init Sample.compile cfg = Some (Sample.instance cfg).
Proof. intros H. unfold init, _compile_regex_patterns. by rewrite H. Qed.

(** C2 at the logging category: "log4j" is reported for "uses log4j-core",
    where a hyphen follows it, and is no whole token of "uses log4j2-core";
    "apache-struts", which has a hyphen, is reported inside
    "apache-struts2". *)
Lemma match_keywords_policy_witness :
  "log4j" ∈ _match_keywords Sample.logging_filter "uses log4j-core" "logging"
  ∧ ¬ whole_token_of "log4j" (Text.lower "uses log4j2-core")
  ∧ "apache-struts"
    ∈ _match_keywords Sample.logging_filter "Uses Apache-Struts2" "logging".
Proof.
  assert (Hlog : "log4j" ∈ default ∅ (keywords Sample.logging_filter !! "logging")).
  { rewrite logging_keywords. apply elem_of_union. left. by apply elem_of_singleton. }
  assert (Hstruts : "apache-struts"
                    ∈ default ∅ (keywords Sample.logging_filter !! "logging")).
  { rewrite logging_keywords. apply elem_of_union. right. by apply elem_of_singleton. }
  destruct (match_keywords_policy Sample.logging_filter "uses log4j-core"
              "logging" "log4j" Hlog eq_refl eq_refl eq_refl eq_refl)
    as (Hword & _ & _ & Hno).
  destruct (match_keywords_policy Sample.logging_filter "Uses Apache-Struts2"
              "logging" "apache-struts" Hstruts eq_refl eq_refl eq_refl eq_refl)
    as (_ & Hsub & _).
  split; [|split; [exact Hno|]].
  - apply Hword; [reflexivity|]. by exists "uses ", "-core".
  - apply Hsub; [done|reflexivity|]. by exists "uses ", "2".
Defined.

(** X1 at the logging category. *)
Lemma keyword_index_lookup_witness :
  ∃ S, keywords Sample.logging_filter !! "logging" = Some S
       ∧ ∀ kw, kw ∈ S ↔ ∃ raw, raw ∈ ["Log4j"; "apache-struts"]
                                ∧ kw = Text.lower (Text.strip raw).
Proof.
  assert (Hnd : NoDup (default [] (cfg_categories Sample.logging_config)).*1).
  { vm_compute. apply NoDup_singleton. }
  destruct (keyword_index_lookup Sample.compile Sample.logging_config
              Sample.logging_filter "logging" (init_instance Sample.logging_config eq_refl) Hnd)
    as [H _].
  apply (H (Sample.category None ["Log4j"; "apache-struts"])).
  vm_compute. by left.
Defined.

(** X2 at the keyword stored for "Log4j". *)
Lemma stored_keywords_normal_witness :
  Text.lower "log4j" = "log4j" ∧ Text.strip "log4j" = "log4j".
Proof.
  apply (stored_keywords_normal Sample.compile Sample.logging_config
           Sample.logging_filter "logging" "log4j" (init_instance Sample.logging_config eq_refl)).
  rewrite logging_keywords. apply elem_of_union. left. by apply elem_of_singleton.
Defined.

(** X3 at "apache-struts", which has a hyphen. *)
Lemma configured_keyword_policy_witness :
  "apache-struts"
  ∈ _match_keywords Sample.logging_filter "Uses Apache-Struts2" "logging".
Proof.
  assert (Hin : "apache-struts"
                ∈ default ∅ (keywords Sample.logging_filter !! "logging")).
  { rewrite logging_keywords. apply elem_of_union. right. by apply elem_of_singleton. }
  destruct (configured_keyword_policy Sample.compile Sample.logging_config
              Sample.logging_filter "logging" "apache-struts" "Uses Apache-Struts2"
              (init_instance Sample.logging_config eq_refl) Hin eq_refl eq_refl) as [_ H].
  apply H; [reflexivity|]. by exists "uses ", "2".
Defined.

Example xss_one_result :
  filter_advisory Sample.search Sample.xss_filter (Sample.described "xss one")
  = Some (Sample.xss_result "xss one").
Proof. vm_compute. reflexivity. Qed.

(** X5 at three categories with distinct display names, of which the
    first matches with two keywords and the third with one. *)
Lemma matched_keywords_entries_witness :
  ∃ r, filter_advisory Sample.search Sample.stack_filter Sample.stack_advisory
       = Some r
       ∧ (matched_keywords (matches r)).*1 = ["Web"; "Logging"]
       ∧ (matched_keywords (matches r)).*1 = matched_categories (matches r)
       ∧ NoDup (matched_keywords (matches r)).*1
       ∧ Forall (fun kv => kv.2 ≠ []) (matched_keywords (matches r)).
Proof.
  destruct (filter_advisory Sample.search Sample.stack_filter Sample.stack_advisory)
    as [r|] eqn:Hr; [|vm_compute in Hr; discriminate].
  exists r. split; [done|].
  destruct (matched_keywords_entries Sample.search Sample.stack_filter
              Sample.stack_advisory r Hr) as (H1 & _ & H3 & H4).
  assert (Hnd : NoDup (display_name
                         <$> default [] (cfg_categories (config Sample.stack_filter)))).
  { vm_compute. apply (bool_decide_unpack _). vm_compute. exact I. }
  destruct (H4 Hnd) as [Hmk Hkeys].
  split; [|split; [exact Hkeys|split; [exact H1|exact H3]]].
  rewrite Hmk. vm_compute. reflexivity.
Defined.

(** X6 at a result that scores 15. *)
Lemma default_score_at_least_seven_witness :
  7 ≤ relevance_score (Sample.xss_result "xss one").
Proof.
  exact (proj1 (default_score_at_least_seven Sample.search Sample.xss_filter
                  (Sample.described "xss one") (Sample.xss_result "xss one")
                  xss_one_result eq_refl eq_refl)).
Defined.

(** X9 at two matching advisories: the output is the batch order. *)
Lemma ranking_disabled_keeps_batch_order_witness :
  filter_advisories Sample.search Sample.unranked_filter Sample.xss_batch
  = Py.slice_to
      (omap (filter_advisory Sample.search Sample.unranked_filter) Sample.xss_batch) 20.
Proof.
  exact (proj1 (ranking_disabled_keeps_batch_order Sample.search
                  Sample.unranked_filter Sample.xss_batch eq_refl)).
Defined.

(** X10 at an advisory without a score, under the floor of 7.0. *)
Lemma missing_cvss_rejected_witness :
  filter_advisory Sample.search Sample.injection_filter (Sample.described "xss one")
  = None.
Proof.
  assert (Hmin : (0 < 7 # 1)%Q) by reflexivity.
  destruct (missing_cvss_rejected Sample.search Sample.injection_filter
              (Sample.described "xss one") eq_refl eq_refl Hmin) as (_ & H & _).
  exact H.
Defined.

(** X13 at a keyword that stands in a reference only. *)
Lemma keyword_in_field_reported_witness :
  "apache-struts"
  ∈ _match_keywords Sample.logging_filter
      (searchable_text
         {| adv_id := Some "CVE-2024-0003"; adv_description := None;
            adv_summary := None; adv_title := None;
            adv_references := Some ["https://example.org/Apache-Struts/advisory"];
            adv_severity := None; adv_cvssScore := None;
            adv_url := None; adv_publishedDate := None |})
      "logging".
Proof.
  apply (keyword_in_field_reported Sample.compile Sample.logging_config
           Sample.logging_filter "logging" "apache-struts" _
           "https://example.org/Apache-Struts/advisory" (init_instance Sample.logging_config eq_refl)).
  - rewrite logging_keywords. apply elem_of_union. right. by apply elem_of_singleton.
  - reflexivity.
  - apply (bool_decide_unpack _). vm_compute. exact I.
  - vm_compute. do 4 right. by left.
  - by exists "https://example.org/", "/advisory".
Defined.

(** X11 at the filter left by a configuration whose middle pattern raises
    [re.error]: the third pattern is reported with its description. *)
Lemma reported_pattern_iff_witness :
  {| mp_description := "this year"; mp_pattern := "CVE-2024" |}
  ∈ _match_regex_patterns Sample.search Sample.patterns_filter
      "Fix for cve-2024-1234".
Proof.
  apply (reported_pattern_iff Sample.compile Sample.search
           (Sample.patterns_config "(") Sample.patterns_filter
           "Fix for cve-2024-1234" _ compile_skips_re_error).
  split; [reflexivity|].
  exists {| pc_pattern := "CVE-2024"; pc_description := Some "this year" |}, "cve-2024".
  split; [do 2 right; by left|]. split; [reflexivity|]. split; reflexivity.
Defined.

(** X12 at the scenario: two advisories read, one kept, one category. *)
Lemma main_output_counts_witness :
  ∃ out, main_output Sample.compile Sample.search Sample.injection_config
           Sample.batch_of_two = Some out
         ∧ filtered_advisories out = 1
         ∧ 0 ≤ filtered_advisories out ≤ total_advisories out
         ∧ categories_used out = 1
         ∧ regex_patterns_used out ≤ 0.
Proof.
  destruct (main_output Sample.compile Sample.search Sample.injection_config
              Sample.batch_of_two) as [out|] eqn:Hout;
    [|vm_compute in Hout; discriminate].
  exists out. split; [done|].
  destruct (main_output_counts Sample.compile Sample.search Sample.injection_config
              Sample.batch_of_two out Hout) as (H1 & H2 & H3 & H4 & _).
  split; [|split; [exact H2|split; [|exact H4]]].
  - rewrite H1. vm_compute in Hout. by injection Hout as <-.
  - apply H3. vm_compute. apply NoDup_singleton.
Defined.

(** X14 at a short description and the limit of the Teams card. *)
Lemma truncated_description_fits_witness :
  Notification.truncate Notification.TEAMS_MAX_DESCRIPTION_LENGTH "XSS issue"
  = "XSS issue".
Proof.
  assert (Hmax : Notification.TEAMS_MAX_DESCRIPTION_LENGTH
                 ∈ [Notification.MAX_DESCRIPTION_LENGTH;
                    Notification.TEAMS_MAX_DESCRIPTION_LENGTH]).
  { right. by left. }
  destruct (truncated_description_fits Notification.TEAMS_MAX_DESCRIPTION_LENGTH
              "XSS issue" Hmax) as (_ & H & _).
  apply H. vm_compute. lia.
Defined.
